(** * Browser compatibility service: a shallow embedding

    Source: [src/app/service/browser-compatibility.module.ts]
    (class [BrowserCompatibilityService]).

    Conventions of the embedding.
    - A JavaScript string is a [string]: a sequence of 8-bit code units
      (the Latin-1 range of UTF-16 code units).
    - Values whose TypeScript type is [any] (the entries of
      [navigator.userAgentData]) or whose declared type is erased at run
      time are [JSValue]s; calling a string method on a non-string raises
      [TypeError].
    - A JavaScript number produced by [parseInt] here is a non-negative
      integer-valued double or [Infinity]; it is written as its value in
      [Z], [Infinity] as 2^1024, which keeps [<], [>], [>=] and [!==] what
      they are on doubles.
    - [try { ... } catch] is [try_catch] over the [Completion] monad.
    - The two navigation effects of [window.location] are recorded, in
      order, in a list of [NavRequest]s. *)

From Stdlib Require Import Bool List ZArith NArith Lia Ascii String.
Import ListNotations.

Local Open Scope string_scope.
Local Open Scope bool_scope.

(* ===================================================================== *)
(** ** JavaScript string primitives *)
(* ===================================================================== *)

Module Str.

Definition code (c : ascii) : N := N_of_ascii c.

Definition in_range (lo hi : N) (c : ascii) : bool :=
  (lo <=? code c)%N && (code c <=? hi)%N.

(** [\d] *)
Definition is_digit (c : ascii) : bool := in_range 48 57 c.

(** White space stripped by [String.prototype.trim] (code units below 256):
    TAB, LF, VT, FF, CR, SPACE and NBSP. *)
Definition is_space (c : ascii) : bool :=
  in_range 9 13 c || (code c =? 32)%N || (code c =? 160)%N.

(** [String.prototype.includes] *)
Fixpoint includes (s needle : string) : bool :=
  if prefix needle s then true
  else match s with
       | EmptyString => false
       | String _ rest => includes rest needle
       end.

(** [String.prototype.startsWith] *)
Definition startsWith (s p : string) : bool := prefix p s.

Fixpoint rev (s : string) : string :=
  match s with
  | EmptyString => EmptyString
  | String c rest => rev rest ++ String c EmptyString
  end.

(** [String.prototype.endsWith] *)
Definition endsWith (s p : string) : bool := prefix (rev p) (rev s).

(** [s.substring(n)] *)
Fixpoint drop (n : nat) (s : string) : string :=
  match n, s with
  | O, _ => s
  | S _, EmptyString => EmptyString
  | S k, String _ rest => drop k rest
  end.

(** [s.slice(0, -1)] *)
Fixpoint drop_last (s : string) : string :=
  match s with
  | EmptyString => EmptyString
  | String _ EmptyString => EmptyString
  | String c rest => String c (drop_last rest)
  end.

Fixpoint trimStart (s : string) : string :=
  match s with
  | EmptyString => EmptyString
  | String c rest => if is_space c then trimStart rest else s
  end.

Fixpoint trimEnd (s : string) : string :=
  match s with
  | EmptyString => EmptyString
  | String c rest =>
      match trimEnd rest with
      | EmptyString => if is_space c then EmptyString else String c EmptyString
      | t => String c t
      end
  end.

(** [String.prototype.trim] *)
Definition trim (s : string) : string := trimEnd (trimStart s).

Definition lower_char (c : ascii) : ascii :=
  if in_range 65 90 c || (in_range 192 222 c && negb (code c =? 215)%N)
  then ascii_of_N (code c + 32)
  else c.

(** [String.prototype.toLowerCase] *)
Fixpoint toLowerCase (s : string) : string :=
  match s with
  | EmptyString => EmptyString
  | String c rest => String (lower_char c) (toLowerCase rest)
  end.

(** [s.split(sep)] for a one-character separator: never the empty list. *)
Fixpoint split (sep : ascii) (s : string) : list string :=
  match s with
  | EmptyString => [EmptyString]
  | String c rest =>
      if Ascii.eqb c sep then EmptyString :: split sep rest
      else match split sep rest with
           | h :: t => String c h :: t
           | [] => [String c EmptyString]
           end
  end.

(** [parts.join(sep)] *)
Definition join (sep : string) (parts : list string) : string :=
  String.concat sep parts.

Fixpoint filter (p : ascii -> bool) (s : string) : string :=
  match s with
  | EmptyString => EmptyString
  | String c rest => if p c then String c (filter p rest) else filter p rest
  end.

Fixpoint takeWhile (p : ascii -> bool) (s : string) : string :=
  match s with
  | EmptyString => EmptyString
  | String c rest => if p c then String c (takeWhile p rest) else EmptyString
  end.

Fixpoint dropWhile (p : ascii -> bool) (s : string) : string :=
  match s with
  | EmptyString => EmptyString
  | String c rest => if p c then dropWhile p rest else s
  end.

Fixpoint forallb (p : ascii -> bool) (s : string) : bool :=
  match s with
  | EmptyString => true
  | String c rest => p c && forallb p rest
  end.

(** No code unit of [s] is [sep]. *)
Definition lacks (sep : ascii) (s : string) : bool :=
  forallb (fun c => negb (Ascii.eqb c sep)) s.

Definition digit_value (c : ascii) : Z := Z.of_N (code c) - 48.

Fixpoint decimal_from (acc : Z) (s : string) : Z :=
  match s with
  | EmptyString => acc
  | String c rest => decimal_from (10 * acc + digit_value c) rest
  end.

(** The Number value of a non-negative integer: itself below 2^53, else
    the nearest double, ties to the even significand, and [Infinity]
    (written 2^1024) once that reaches 2^1024.  Engines round a decimal
    integer of any length this way (the specification would let them zero
    the digits after the 20th). *)
Definition toNumber (n : Z) : Z :=
  if (n <? 2 ^ 53)%Z then n
  else
    let e := (Z.log2 n - 52)%Z in
    let q := Z.shiftr n e in
    let r := (n - Z.shiftl q e)%Z in
    let half := (2 ^ (e - 1))%Z in
    let q' := if (half <? r)%Z || ((r =? half)%Z && Z.odd q) then (q + 1)%Z else q in
    Z.min (Z.shiftl q' e) (2 ^ 1024)%Z.

(** [parseInt(s, 10)]: leading white space, an optional sign, then the
    longest run of decimal digits; [None] is [NaN]. *)
Definition parseInt10 (s : string) : option Z :=
  let s1 := trimStart s in
  let '(negative, s2) :=
    match s1 with
    | String "-"%char r => (true, r)
    | String "+"%char r => (false, r)
    | _ => (false, s1)
    end in
  match takeWhile is_digit s2 with
  | EmptyString => None
  | ds => Some (if negative then (- toNumber (decimal_from 0 ds))%Z
                else toNumber (decimal_from 0 ds))
  end.

End Str.

Import Str.

(* ===================================================================== *)
(** ** Dynamic values and abrupt completion *)
(* ===================================================================== *)

Inductive JSValue : Type :=
| JSUndefined
| JSNull
| JSBool (b : bool)
| JSNumber (n : Z)
| JSString (s : string).

(** [ToBoolean] *)
Definition truthy (v : JSValue) : bool :=
  match v with
  | JSUndefined | JSNull => false
  | JSBool b => b
  | JSNumber n => negb (n =? 0)%Z
  | JSString s => negb (s =? "")
  end.

Inductive JSError : Type := TypeError.

Inductive Completion (A : Type) : Type :=
| Normal (a : A)
| Throw (e : JSError).
Arguments Normal {A} a.
Arguments Throw {A} e.

Definition bind {A B} (c : Completion A) (k : A -> Completion B) : Completion B :=
  match c with
  | Normal a => k a
  | Throw e => Throw e
  end.

Notation "x <- c ;; k" := (bind c (fun x => k))
  (at level 61, c at next level, right associativity).

(** [try { body } catch (error) { handler }] *)
Definition try_catch {A} (body : Completion A) (handler : JSError -> Completion A)
  : Completion A :=
  match body with
  | Normal a => Normal a
  | Throw e => handler e
  end.

(** The receiver of a string method call ([v.trim()], [v.replace(..)],
    [v.toLowerCase()]): anything but a string has no such method. *)
Definition string_receiver (v : JSValue) : Completion string :=
  match v with
  | JSString s => Normal s
  | _ => Throw TypeError
  end.

(* ===================================================================== *)
(** ** Version comparator *)
(* ===================================================================== *)

(** [parseVersion]:
    [version.split('.').map(v => { const num = parseInt(v.replace(/[^\d]/g, ''), 10);
                                    return isNaN(num) ? 0 : num; })] *)
Definition parseFragment (v : string) : Z :=
  match parseInt10 (filter is_digit v) with
  | None => 0
  | Some num => num
  end.

Definition parseVersion (version : string) : list Z :=
  map parseFragment (split "."%char version).

(** [while (a.length < 3) a.push(0)] *)
Definition pad3 (a : list Z) : list Z := a ++ repeat 0%Z (3 - List.length a).

Definition major (a : list Z) : Z := nth 0 (pad3 a) 0%Z.
Definition minor (a : list Z) : Z := nth 1 (pad3 a) 0%Z.
Definition patch (a : list Z) : Z := nth 2 (pad3 a) 0%Z.

(** What [compareVersions] reads of an array: its first three components
    after padding. *)
Definition triple (a : list Z) : list Z := firstn 3 (pad3 a).

Definition compare_at_least (current minimum : list Z) : bool :=
  let curMajor := major current in
  let curMinor := minor current in
  let curPatch := patch current in
  let minMajor := major minimum in
  let minMinor := minor minimum in
  let minPatch := patch minimum in
  if (curMajor >? minMajor)%Z then true
  else if (curMajor <? minMajor)%Z then false
  else if (curMinor >? minMinor)%Z then true
  else if (curMinor <? minMinor)%Z then false
  else (curPatch >=? minPatch)%Z.

(** [compareVersions]; the [default] case calls itself with ['>='], which
    is the first case. *)
Definition compareVersions (current minimum : list Z) (operator : string) : bool :=
  let curMajor := major current in
  let curMinor := minor current in
  let curPatch := patch current in
  let minMajor := major minimum in
  let minMinor := minor minimum in
  let minPatch := patch minimum in
  if operator =? ">=" then compare_at_least current minimum
  else if operator =? "^" then
    if negb (curMajor =? minMajor)%Z then (curMajor >? minMajor)%Z
    else if (curMinor >? minMinor)%Z then true
    else if (curMinor <? minMinor)%Z then false
    else (curPatch >=? minPatch)%Z
  else if operator =? "~" then
    if negb (curMajor =? minMajor)%Z || negb (curMinor =? minMinor)%Z
    then (curMajor >? minMajor)%Z
         || ((curMajor =? minMajor)%Z && (curMinor >? minMinor)%Z)
    else (curPatch >=? minPatch)%Z
  else compare_at_least current minimum.

(** [parts.slice(0, 3)] after [while (parts.length < 3) parts.push('0')] *)
Definition pad3_parts (parts : list string) : list string :=
  firstn 3 (parts ++ repeat "0" (3 - List.length parts)).

(** [cleanVersion] *)
Definition cleanVersion (version : JSValue) : Completion string :=
  if negb (truthy version) then Normal "0.0.0"
  else
    v <- string_receiver version ;;
    let cleaned := if startsWith v "v" then drop 1 v else v in
    let parts := split "."%char cleaned in
    Normal (join "." (pad3_parts parts)).

(** The constraint-operator prefix (or suffix) of a trimmed constraint. *)
Definition stripOperator (cleanMinimumVersion : string) : string * string :=
  if startsWith cleanMinimumVersion ">=" then (">=", trim (drop 2 cleanMinimumVersion))
  else if startsWith cleanMinimumVersion "^" then ("^", trim (drop 1 cleanMinimumVersion))
  else if startsWith cleanMinimumVersion "~" then ("~", trim (drop 1 cleanMinimumVersion))
  else if endsWith cleanMinimumVersion "~" then ("~", trim (drop_last cleanMinimumVersion))
  else (">=", cleanMinimumVersion).

(** The body of the [try] block of [isVersionSupported]. *)
Definition isVersionSupported_body (currentVersion minimumVersion : JSValue)
  : Completion bool :=
  cleanCurrentVersion <- cleanVersion currentVersion ;;
  minimumText <- string_receiver minimumVersion ;;
  let '(operator, cleanMinimumVersion) := stripOperator (trim minimumText) in
  let currentParts := parseVersion cleanCurrentVersion in
  let minimumParts := parseVersion cleanMinimumVersion in
  Normal (compareVersions currentParts minimumParts operator).

(** [isVersionSupported] *)
Definition isVersionSupported (currentVersion minimumVersion : JSValue)
  : Completion bool :=
  if negb (truthy minimumVersion) then Normal true
  else try_catch (isVersionSupported_body currentVersion minimumVersion)
                 (fun _ => Normal true).

(* ===================================================================== *)
(** ** Data model *)
(* ===================================================================== *)

Module SupportedBrowser.

Inductive t : Type := CHROME | FIREFOX | SAFARI | EDGE | SAMSUNG | LINE | UNKNOWN.

(** [a === b] on the enumeration. *)
Definition eqb (a b : t) : bool :=
  match a, b with
  | CHROME, CHROME | FIREFOX, FIREFOX | SAFARI, SAFARI | EDGE, EDGE
  | SAMSUNG, SAMSUNG | LINE, LINE | UNKNOWN, UNKNOWN => true
  | _, _ => false
  end.

End SupportedBrowser.

Module Platform.

Inductive t : Type := DESKTOP | MOBILE | UNKNOWN.

End Platform.

Definition BrowserType := SupportedBrowser.t.

Record SupportedVersions : Type := {
  chrome : string;
  firefox : string;
  safari : string;
  edge : string;
  samsung : string
}.

Record BrowserCompatibilityConfig : Type := {
  enabled : bool;
  supportedVersions : SupportedVersions
}.

Record BrowserInfo : Type := {
  name : BrowserType;
  version : JSValue;
  platform : Platform.t;
  isSupported : bool;
  minimumVersion : option string;
  userAgent : string
}.

(** One entry of [navigator.userAgentData.brands]. *)
Record Brand : Type := {
  brand : JSValue;
  brand_version : JSValue
}.

(** [navigator.userAgentData]; a missing [brands] is [None]. *)
Record UserAgentData : Type := {
  brands : option (list Brand);
  uad_platform : JSValue;
  mobile : JSValue
}.

Record Navigator : Type := {
  nav_userAgent : string;
  userAgentData : option UserAgentData
}.

(** [window.location]: [href] is the serialized current URL, [origin] its
    scheme, host and port. *)
Record Location : Type := {
  href : string;
  origin : string
}.

(** The window handed out by [WindowRef.nativeWindow], which is the global
    [window]. *)
Record Window : Type := {
  location : Location;
  navigator : Navigator
}.

(* ===================================================================== *)
(** ** Identity extractor *)
(* ===================================================================== *)

(** [detectPlatform] *)
Definition detectPlatform (userAgent : string) : Platform.t :=
  if includes userAgent "Windows"
     || includes userAgent "Linux"
     || includes userAgent "Macintosh"
     || includes userAgent "Mac OS"
     || includes userAgent "Linux"
  then Platform.DESKTOP
  else if includes userAgent "Mobile"
          || includes userAgent "Tablet"
          || includes userAgent "Android"
          || includes userAgent "iPhone"
          || includes userAgent "iPad"
  then Platform.MOBILE
  else Platform.UNKNOWN.

(** [typeof v === 'boolean'] *)
Definition as_boolean (v : JSValue) : option bool :=
  match v with
  | JSBool b => Some b
  | _ => None
  end.

(** The [try] block of [detectPlatformFromClientHints]. *)
Definition detectPlatformFromClientHints_body (navigator : Navigator)
  : Completion (option Platform.t) :=
  let mobileFlag :=
    match userAgentData navigator with
    | Some data =>
        match as_boolean (mobile data) with
        | Some m => Some (if m then Platform.MOBILE else Platform.DESKTOP)
        | None => None
        end
    | None => None
    end in
  match userAgentData navigator with
  | Some data =>
      if truthy (uad_platform data) then
        text <- string_receiver (uad_platform data) ;;
        let platform := toLowerCase text in
        if includes platform "windows" then Normal (Some Platform.DESKTOP)
        else if includes platform "macos" || includes platform "mac"
        then Normal (Some Platform.DESKTOP)
        else if includes platform "linux" then Normal (Some Platform.DESKTOP)
        else if includes platform "android" then Normal (Some Platform.MOBILE)
        else if includes platform "ios" then Normal (Some Platform.MOBILE)
        else Normal mobileFlag
      else Normal mobileFlag
  | None => Normal mobileFlag
  end.

(** [detectPlatformFromClientHints] *)
Definition detectPlatformFromClientHints (navigator : Navigator)
  : Completion (option Platform.t) :=
  try_catch (detectPlatformFromClientHints_body navigator) (fun _ => Normal None).

(** The four tests made on a lower-cased brand name. *)
Definition edgeLike (brandName : string) : bool :=
  includes brandName "microsoft edge" || includes brandName "edge".

Definition samsungLike (brandName : string) : bool :=
  includes brandName "samsung".

Definition chromeLike (brandName : string) : bool :=
  includes brandName "chrome" && negb (includes brandName "chromium").

Definition firefoxLike (brandName : string) : bool :=
  includes brandName "firefox".

(** The [if / else if] chain applied to one lower-cased brand name inside
    the loop of [detectBrowserFromClientHints]. *)
Definition brandKind (brandName : string) : option BrowserType :=
  if edgeLike brandName then Some SupportedBrowser.EDGE
  else if samsungLike brandName then Some SupportedBrowser.SAMSUNG
  else if chromeLike brandName then Some SupportedBrowser.CHROME
  else if firefoxLike brandName then Some SupportedBrowser.FIREFOX
  else None.

(** [for (const brand of brands) { ... }] with its early [return]s. *)
Fixpoint scanBrands (brands : list Brand) : Completion (option (BrowserType * JSValue)) :=
  match brands with
  | [] => Normal None
  | b :: rest =>
      text <- string_receiver (brand b) ;;
      let brandName := toLowerCase text in
      let version := brand_version b in
      match brandKind brandName with
      | Some kind => Normal (Some (kind, version))
      | None => scanBrands rest
      end
  end.

(** [brands.find((b) => b.brand.toLowerCase().includes('chromium'))] *)
Fixpoint findChromium (brands : list Brand) : Completion (option Brand) :=
  match brands with
  | [] => Normal None
  | b :: rest =>
      text <- string_receiver (brand b) ;;
      if includes (toLowerCase text) "chromium" then Normal (Some b)
      else findChromium rest
  end.

(** The [try] block of [detectBrowserFromClientHints]. *)
Definition detectBrowserFromClientHints_body (navigator : Navigator)
  : Completion (option (BrowserType * JSValue)) :=
  match userAgentData navigator with
  | Some data =>
      match brands data with
      | Some brands =>
          found <- scanBrands brands ;;
          match found with
          | Some result => Normal (Some result)
          | None =>
              chromiumBrand <- findChromium brands ;;
              match chromiumBrand with
              | Some b => Normal (Some (SupportedBrowser.UNKNOWN, brand_version b))
              | None => Normal None
              end
          end
      | None => Normal None
      end
  | None => Normal None
  end.

(** [detectBrowserFromClientHints] *)
Definition detectBrowserFromClientHints (navigator : Navigator)
  : Completion (option (BrowserType * JSValue)) :=
  try_catch (detectBrowserFromClientHints_body navigator) (fun _ => Normal None).

(** The version patterns of [detectBrowser] all have the shape
    [/Literal\/(\d+\.\d+)/] or [/Literal\/(\d+\.\d+\.\d+)/]: a literal
    followed by one capture group of [components] dot-separated digit
    runs. *)
Record VersionRegex : Type := {
  literal : string;
  components : nat
}.

(** [\d+(\.\d+)*] with [n] runs in all, anchored at the start of [s]; each
    [\d+] is greedy, and giving digits back never helps since the next
    pattern character is not a digit. *)
Fixpoint dottedDigits (n : nat) (s : string) : option string :=
  match n with
  | O => None
  | S k =>
      match takeWhile is_digit s with
      | EmptyString => None
      | run =>
          match k with
          | O => Some run
          | S _ =>
              match dropWhile is_digit s with
              | String "."%char rest =>
                  match dottedDigits k rest with
                  | Some more => Some (run ++ "." ++ more)
                  | None => None
                  end
              | _ => None
              end
          end
      end
  end.

(** The pattern anchored at the start of [s]; the result is capture
    group 1. *)
Definition matchHere (re : VersionRegex) (s : string) : option string :=
  if prefix (literal re) s
  then dottedDigits (components re) (drop (String.length (literal re)) s)
  else None.

(** [s.match(re)] for a pattern without the [g] flag: the leftmost match;
    [None] is [null], [Some c] a match whose [match[1]] is [c]. *)
Fixpoint regexMatch (re : VersionRegex) (s : string) : option string :=
  match matchHere re s with
  | Some captured => Some captured
  | None =>
      match s with
      | EmptyString => None
      | String _ rest => regexMatch re rest
      end
  end.

Record Detector : Type := {
  condition : string -> bool;
  browser : BrowserType;
  versionRegex : VersionRegex;
  customVersionProcessor : option (option string -> string)
}.

(** [(match) => (match ? match[1] + '.0' : '0.0.0')] *)
Definition appendPatchZero (m : option string) : string :=
  match m with
  | Some captured => captured ++ ".0"
  | None => "0.0.0"
  end.

(** [supportedBrowserDetectors], in the order of the source. *)
Definition supportedBrowserDetectors : list Detector :=
  [ {| condition := fun userAgent =>
         (includes userAgent "Chrome" || includes userAgent "Safari")
         && negb (includes userAgent "Edg")
         && negb (includes userAgent "OPR")
         && negb (includes userAgent "SamsungBrowser")
         && negb (includes userAgent "Brave")
         && includes userAgent "Line";
       browser := SupportedBrowser.LINE;
       versionRegex := {| literal := "Line/"; components := 3 |};
       customVersionProcessor := None |};
    {| condition := fun userAgent =>
         includes userAgent "Safari" && negb (includes userAgent "Chrome");
       browser := SupportedBrowser.SAFARI;
       versionRegex := {| literal := "Version/"; components := 2 |};
       customVersionProcessor := Some appendPatchZero |};
    {| condition := fun userAgent =>
         includes userAgent "Chrome"
         && negb (includes userAgent "Edg")
         && negb (includes userAgent "OPR")
         && negb (includes userAgent "SamsungBrowser")
         && negb (includes userAgent "Brave");
       browser := SupportedBrowser.CHROME;
       versionRegex := {| literal := "Chrome/"; components := 3 |};
       customVersionProcessor := None |};
    {| condition := fun userAgent => includes userAgent "Edg/";
       browser := SupportedBrowser.EDGE;
       versionRegex := {| literal := "Edg/"; components := 3 |};
       customVersionProcessor := None |};
    {| condition := fun userAgent => includes userAgent "Firefox";
       browser := SupportedBrowser.FIREFOX;
       versionRegex := {| literal := "Firefox/"; components := 2 |};
       customVersionProcessor := Some appendPatchZero |};
    {| condition := fun userAgent => includes userAgent "SamsungBrowser";
       browser := SupportedBrowser.SAMSUNG;
       versionRegex := {| literal := "SamsungBrowser/"; components := 2 |};
       customVersionProcessor := Some appendPatchZero |} ].

(** The body of the detector loop once [detector.condition()] holds. *)
Definition detectedVersion (detector : Detector) (userAgent : string) : string :=
  let m := regexMatch (versionRegex detector) userAgent in
  match customVersionProcessor detector with
  | Some process => process m
  | None =>
      match m with
      | Some captured => captured
      | None => "0.0.0"
      end
  end.

(** The detector the loop of [detectBrowser] stops at: the first one whose
    condition holds. *)
Definition selectedDetector (userAgent : string) : option Detector :=
  find (fun detector => condition detector userAgent) supportedBrowserDetectors.

(** [detectBrowser] *)
Definition detectBrowser (userAgent : string) : BrowserType * string :=
  match selectedDetector userAgent with
  | Some detector => (browser detector, detectedVersion detector userAgent)
  | None => (SupportedBrowser.UNKNOWN, "0.0.0")
  end.

(** The result of [parseUserAgent]. *)
Record Identity : Type := {
  id_name : BrowserType;
  id_version : JSValue;
  id_platform : Platform.t
}.

(** [parseUserAgent] *)
Definition parseUserAgent (navigator : Navigator) (userAgent : string)
  : Completion Identity :=
  clientHintsBrowser <- detectBrowserFromClientHints navigator ;;
  match clientHintsBrowser with
  | Some (hintName, hintVersion) =>
      hinted <- detectPlatformFromClientHints navigator ;;
      let platform :=
        match hinted with
        | Some p => p
        | None => detectPlatform userAgent
        end in
      Normal {| id_name := hintName; id_version := hintVersion; id_platform := platform |}
  | None =>
      let platform := detectPlatform userAgent in
      let browser := detectBrowser userAgent in
      Normal {| id_name := fst browser;
                id_version := JSString (snd browser);
                id_platform := platform |}
  end.

(* ===================================================================== *)
(** ** Compatibility evaluator *)
(* ===================================================================== *)

(** [getMinimumVersion] *)
Definition getMinimumVersion (config : BrowserCompatibilityConfig)
  (browserName : BrowserType) : option string :=
  match browserName with
  | SupportedBrowser.CHROME => Some (chrome (supportedVersions config))
  | SupportedBrowser.FIREFOX => Some (firefox (supportedVersions config))
  | SupportedBrowser.SAFARI => Some (safari (supportedVersions config))
  | SupportedBrowser.EDGE => Some (edge (supportedVersions config))
  | SupportedBrowser.SAMSUNG => Some (samsung (supportedVersions config))
  | _ => None
  end.

(** [getBrowserCompatibilityInfo] *)
Definition getBrowserCompatibilityInfo (window : Window)
  (config : BrowserCompatibilityConfig) : Completion BrowserInfo :=
  let userAgent := nav_userAgent (navigator window) in
  browserInfo <- parseUserAgent (navigator window) userAgent ;;
  let minimumVersion := getMinimumVersion config (id_name browserInfo) in
  isSupported <-
    match minimumVersion with
    | Some minimum => isVersionSupported (id_version browserInfo) (JSString minimum)
    | None => Normal false
    end ;;
  Normal {| name := id_name browserInfo;
            version := id_version browserInfo;
            platform := id_platform browserInfo;
            isSupported := isSupported;
            minimumVersion := minimumVersion;
            userAgent := userAgent |}.


(* ===================================================================== *)
(** ** The host's URL API *)
(* ===================================================================== *)

Module URL.

(** A parsed URL.  [base] is the scheme, authority and path; [query] and
    [fragment] are [None] when the URL has no [?] or [#] part.  The strings
    given to the parser by this service are already serialized URLs, so
    parsing only has to find the two delimiters.  Parameter names and
    values are the byte sequences that percent-decoding yields.  The host
    decodes them as UTF-8 and encodes them again when it prints a query:
    that is the identity on well-formed UTF-8, ASCII included, while bytes
    that are not UTF-8 are printed back as the escape of U+FFFD; the
    properties below speak of parameter lists and of the ASCII marker,
    not of the printed escapes of other parameters. *)
Record t : Type := {
  base : string;
  query : option string;
  fragment : option string
}.

(** [s] up to the first [sep], and what follows it if there is one. *)
Fixpoint cut (sep : ascii) (s : string) : string * option string :=
  match s with
  | EmptyString => (EmptyString, None)
  | String c rest =>
      if Ascii.eqb c sep then (EmptyString, Some rest)
      else let '(before, after) := cut sep rest in (String c before, after)
  end.

(** [new URL(href)] for an absolute [href]. *)
Definition parse (href : string) : t :=
  let '(beforeHash, fragment) := cut "#"%char href in
  let '(base, query) := cut "?"%char beforeHash in
  {| base := base; query := query; fragment := fragment |}.

(** A serialized URL: the delimiters [?] and [#] occur only as
    delimiters. *)
Definition wellFormed (url : t) : Prop :=
  lacks "?" (base url) = true
  /\ lacks "#" (base url) = true
  /\ match query url with
     | Some q => lacks "#" q = true
     | None => True
     end.

Definition isAlpha (c : ascii) : bool := in_range 65 90 c || in_range 97 122 c.

Definition schemeChar (c : ascii) : bool :=
  isAlpha c || is_digit c
  || Ascii.eqb c "+" || Ascii.eqb c "-" || Ascii.eqb c ".".

(** The code units that end the authority of a URL. *)
Definition endsAuthority (c : ascii) : bool :=
  Ascii.eqb c "/" || Ascii.eqb c "?" || Ascii.eqb c "#".

(** Whether the URL parser accepts [text] as the base of [new URL(_, text)]
    for a path-absolute reference: it needs a scheme, [//] and an
    authority.  [window.location.origin] is either such a string
    ([scheme://host], [scheme://host:port]) or, for an opaque origin, the
    string [null], which has no scheme and is refused; on these values
    the test is exact. *)
Definition validBase (text : string) : bool :=
  match cut ":"%char text with
  | (String c rest, Some after) =>
      isAlpha c && forallb schemeChar rest
      && startsWith after "//"
      && negb (takeWhile (fun x => negb (endsAuthority x)) (drop 2 after) =? "")
  | _ => false
  end.

(** Scheme, [://] and authority of a base: what a path-absolute reference
    keeps of it. *)
Definition originOf (text : string) : string :=
  match cut ":"%char text with
  | (scheme, Some after) =>
      scheme ++ "://" ++ takeWhile (fun x => negb (endsAuthority x)) (drop 2 after)
  | (scheme, None) => scheme
  end.

(** The URL that [path], starting with [/], resolves to against a valid
    base. *)
Definition resolved (path base : string) : t :=
  {| base := originOf base ++ path; query := None; fragment := None |}.

(** [new URL(path, base)] for a path starting with [/]: the base is parsed
    first, and a base the parser refuses is a [TypeError]. *)
Definition ofPath (path base : string) : Completion t :=
  if validBase base then Normal (resolved path base) else Throw TypeError.

(** [new URL(url, base)] for an absolute [url]: the base is parsed first,
    and a base the parser refuses is a [TypeError]; the result is [url]
    parsed on its own. *)
Definition withBase (url base : string) : Completion t :=
  if validBase base then Normal (parse url) else Throw TypeError.

(** [url.toString()] *)
Definition toString (url : t) : string :=
  base url
  ++ match query url with Some q => "?" ++ q | None => "" end
  ++ match fragment url with Some f => "#" ++ f | None => "" end.

(** The getter [url.search]. *)
Definition search (url : t) : string :=
  match query url with
  | None | Some EmptyString => ""
  | Some q => "?" ++ q
  end.

(** The setter [url.search = value]. *)
Definition setSearch (url : t) (value : string) : t :=
  if value =? "" then {| base := base url; query := None; fragment := fragment url |}
  else
    let input := if startsWith value "?" then drop 1 value else value in
    {| base := base url; query := Some input; fragment := fragment url |}.

Definition hexValue (c : ascii) : option N :=
  if is_digit c then Some (code c - 48)%N
  else if in_range 65 70 c then Some (code c - 55)%N
  else if in_range 97 102 c then Some (code c - 87)%N
  else None.

Fixpoint percentDecode (s : string) : string :=
  match s with
  | EmptyString => EmptyString
  | String c rest =>
      let literally := String c (percentDecode rest) in
      if Ascii.eqb c "%" then
        match rest with
        | String h (String l rest') =>
            match hexValue h, hexValue l with
            | Some a, Some b => String (ascii_of_N (16 * a + b)) (percentDecode rest')
            | _, _ => literally
            end
        | _ => literally
        end
      else literally
  end.

Fixpoint plusToSpace (s : string) : string :=
  match s with
  | EmptyString => EmptyString
  | String c rest =>
      String (if Ascii.eqb c "+" then " "%char else c) (plusToSpace rest)
  end.

Definition decodeComponent (s : string) : string := percentDecode (plusToSpace s).

(** The [application/x-www-form-urlencoded] parser. *)
Definition parseQuery (q : string) : list (string * string) :=
  flat_map
    (fun piece =>
       if piece =? "" then []
       else
         let '(n, v) := cut "="%char piece in
         [(decodeComponent n,
           decodeComponent match v with Some v' => v' | None => "" end)])
    (split "&"%char q).

Definition hexDigit (n : N) : ascii :=
  if (n <? 10)%N then ascii_of_N (48 + n) else ascii_of_N (55 + n).

(** Code units the form serializer leaves as they are. *)
Definition unreserved (c : ascii) : bool :=
  is_digit c || in_range 65 90 c || in_range 97 122 c
  || (code c =? 42)%N || (code c =? 45)%N || (code c =? 46)%N || (code c =? 95)%N.

Fixpoint encodeComponent (s : string) : string :=
  match s with
  | EmptyString => EmptyString
  | String c rest =>
      if unreserved c then String c (encodeComponent rest)
      else if Ascii.eqb c " " then String "+" (encodeComponent rest)
      else String "%" (String (hexDigit (code c / 16))
                         (String (hexDigit (code c mod 16)) (encodeComponent rest)))
  end.

(** The [application/x-www-form-urlencoded] serializer. *)
Definition serializeQuery (params : list (string * string)) : string :=
  join "&" (map (fun p => encodeComponent (fst p) ++ "=" ++ encodeComponent (snd p)) params).

(** [url.searchParams] *)
Definition searchParams (url : t) : list (string * string) :=
  match query url with
  | Some q => parseQuery q
  | None => []
  end.

(** [url.searchParams.has(name)] *)
Definition has (url : t) (name : string) : bool :=
  existsb (fun p => fst p =? name) (searchParams url).

(** The list operation of [searchParams.set]: the first pair named [name]
    takes the value, later ones are removed; without any, a pair is
    appended. *)
Fixpoint setPair (name value : string) (params : list (string * string))
  : list (string * string) :=
  match params with
  | [] => [(name, value)]
  | p :: rest =>
      if fst p =? name
      then (name, value) :: List.filter (fun p' => negb (fst p' =? name)) rest
      else p :: setPair name value rest
  end.

(** [url.searchParams.set(name, value)], followed by the update of the
    URL's query from the list. *)
Definition set (url : t) (name value : string) : t :=
  let serialized := serializeQuery (setPair name value (searchParams url)) in
  {| base := base url;
     query := if serialized =? "" then None else Some serialized;
     fragment := fragment url |}.

End URL.

(* ===================================================================== *)
(** ** Navigation policy *)
(* ===================================================================== *)

(** A navigation requested on [window.location]:
    [location.replace(url)] or [location.href = url]. *)
Inductive NavRequest : Type :=
| Replace (url : string)
| Assign (url : string).

(** [s.search(pattern)] for a pattern without regular-expression
    metacharacters: the index of the first occurrence, or [-1]. *)
Fixpoint search_from (i : Z) (s pattern : string) : Z :=
  if prefix pattern s then i
  else match s with
       | EmptyString => (-1)%Z
       | String _ rest => search_from (i + 1)%Z rest pattern
       end.

Definition search (s pattern : string) : Z := search_from 0%Z s pattern.

(** [showIncompatibleBrowserError] *)
Definition showIncompatibleBrowserError (window : Window) (browserInfo : BrowserInfo)
  : Completion (list NavRequest) :=
  let currentUrl := URL.parse (href (location window)) in
  errorUrl <- URL.ofPath "/browser-error" (origin (location window)) ;;
  let errorUrl := URL.setSearch errorUrl (URL.search currentUrl) in
  Normal [Assign (URL.toString errorUrl)].

(** [showIncompatibleBrowserVersionError] *)
Definition showIncompatibleBrowserVersionError (window : Window) (browserInfo : BrowserInfo)
  : Completion (list NavRequest) :=
  let currentUrl := URL.parse (href (location window)) in
  errorUrl <- URL.ofPath "/browser-error" (origin (location window)) ;;
  let errorUrl := URL.setSearch errorUrl (URL.search currentUrl) in
  Normal [Assign (URL.toString errorUrl)].

(** [checkBrowserCompatibility]: the navigations it requests, in order, or
    the error that leaves it. *)
Definition checkBrowserCompatibility (window : Window)
  (config : BrowserCompatibilityConfig) : Completion (list NavRequest) :=
  if URL.has (URL.parse (href (location window))) "openExternalBrowser"
  then Normal []
  else if negb (enabled config) then Normal []
  else
    browserInfo <- getBrowserCompatibilityInfo window config ;;
    if SupportedBrowser.eqb (name browserInfo) SupportedBrowser.LINE
       && (search (href (location window)) "openExternalBrowser" <? 0)%Z
    then
      let url := href (location window) in
      targetUrl <- URL.withBase url (origin (location window)) ;;
      let targetUrl := URL.set targetUrl "openExternalBrowser" "1" in
      Normal [Replace (URL.toString targetUrl)]
    else if negb (isSupported browserInfo) then
      match minimumVersion browserInfo with
      | None => showIncompatibleBrowserError window browserInfo
      | Some _ => showIncompatibleBrowserVersionError window browserInfo
      end
    else Normal [].

(* ===================================================================== *)
(** ** Public accessor and vocabulary of the properties *)
(* ===================================================================== *)

(** The object returned by [getBrowserInfo]. *)
Record BrowserDetails : Type := {
  details_name : BrowserType;
  details_version : JSValue;
  details_platform : Platform.t;
  details_userAgent : string;
  cookieEnabled : JSValue
}.

(** [getBrowserInfo]; [navigatorCookieEnabled] is
    [this.windowRef.nativeWindow.navigator.cookieEnabled]. *)
Definition getBrowserInfo (window : Window) (navigatorCookieEnabled : JSValue)
  : Completion BrowserDetails :=
  let userAgent := nav_userAgent (navigator window) in
  browserInfo <- parseUserAgent (navigator window) userAgent ;;
  Normal {| details_name := id_name browserInfo;
            details_version := id_version browserInfo;
            details_platform := id_platform browserInfo;
            details_userAgent := userAgent;
            cookieEnabled := navigatorCookieEnabled |}.

(** The window of the page loaded once a requested navigation to [url] on
    the same origin has taken place: same browser, new [href]. *)
Definition navigated (window : Window) (url : string) : Window :=
  {| location := {| href := url; origin := origin (location window) |};
     navigator := navigator window |}.

(** The identity that the raw-string heuristics alone give. *)
Definition userAgentIdentity (userAgent : string) : Identity :=
  {| id_name := fst (detectBrowser userAgent);
     id_version := JSString (snd (detectBrowser userAgent));
     id_platform := detectPlatform userAgent |}.

(** A non-empty run of decimal digits. *)
Definition digitRun (s : string) : bool :=
  negb (s =? "") && forallb is_digit s.

(** [n] digit runs separated by dots, as in [120.0.6099]. *)
Definition dottedVersion (n : nat) (s : string) : bool :=
  (List.length (split "."%char s) =? n)%nat
  && List.forallb digitRun (split "."%char s).

(** The lexicographic order on (major, minor, patch). *)
Definition lexGe (a b : list Z) : Prop :=
  (major a > major b)%Z
  \/ (major a = major b
      /\ ((minor a > minor b)%Z
          \/ (minor a = minor b /\ (patch a >= patch b)%Z))).

(** The URL both error functions navigate to. *)
Definition errorTarget (window : Window) : string :=
  URL.originOf (origin (location window)) ++ "/browser-error"
  ++ URL.search (URL.parse (href (location window))).

(** The URL the LINE branch replaces the location with. *)
Definition handoffTarget (window : Window) : string :=
  URL.toString (URL.set (URL.parse (href (location window))) "openExternalBrowser" "1").

(* ===================================================================== *)
(** ** Sample environments *)
(* ===================================================================== *)

(** Brands, user agents, a configuration and a window used to run the
    service on concrete inputs. *)
Module Sample.

Definition notABrand : Brand :=
  {| brand := JSString "Not A(Brand"; brand_version := JSString "8" |}.
Definition chromiumBrand : Brand :=
  {| brand := JSString "Chromium"; brand_version := JSString "121" |}.
Definition chromeBrand : Brand :=
  {| brand := JSString "Google Chrome"; brand_version := JSString "120" |}.
Definition edgeBrand : Brand :=
  {| brand := JSString "Microsoft Edge"; brand_version := JSString "121" |}.

Definition hints (bs : list Brand) : UserAgentData :=
  {| brands := Some bs; uad_platform := JSUndefined; mobile := JSUndefined |}.

Definition hinted (bs : list Brand) : Navigator :=
  {| nav_userAgent := ""; userAgentData := Some (hints bs) |}.

Definition androidUA : string :=
  "Mozilla/5.0 (Linux; Android 13; Pixel 7) AppleWebKit/537.36 (KHTML, like Gecko) Chrome/118.0.0.0 Mobile Safari/537.36".

Definition lineUA : string :=
  "Mozilla/5.0 (Linux; Android 13; Pixel 7) AppleWebKit/537.36 (KHTML, like Gecko) Chrome/118.0.0.0 Mobile Safari/537.36 Line/12.5.0/IAB".

Definition oldChromeUA : string :=
  "Mozilla/5.0 (Windows NT 10.0; Win64; x64) AppleWebKit/537.36 (KHTML, like Gecko) Chrome/85.0.4183.121 Safari/537.36".

Definition config : BrowserCompatibilityConfig :=
  {| enabled := true;
     supportedVersions := {| chrome := ">=90.0.0";
                             firefox := ">=88.0.0";
                             safari := ">=14.0.0";
                             edge := ">=90.0.0";
                             samsung := ">=14.0.0" |} |}.

Definition window (currentHref userAgent : string) : Window :=
  {| location := {| href := currentHref; origin := "https://example.com" |};
     navigator := {| nav_userAgent := userAgent; userAgentData := None |} |}.

(** A page whose origin is opaque: [window.location.origin] is [null]. *)
Definition opaqueWindow (currentHref userAgent : string) : Window :=
  {| location := {| href := currentHref; origin := "null" |};
     navigator := {| nav_userAgent := userAgent; userAgentData := None |} |}.

End Sample.

(* ===================================================================== *)
(** * Properties *)
(* ===================================================================== *)

(** ** Strings *)

Lemma append_empty_r (s : string) : s ++ "" = s.
Proof. induction s as [|c s IH]; simpl; [reflexivity | now rewrite IH]. Qed.

Lemma append_assoc (a b c : string) : (a ++ b) ++ c = a ++ (b ++ c).
Proof. induction a as [|x a IH]; simpl; [reflexivity | now rewrite IH]. Qed.

Lemma prefix_append_weaken (a b s : string) :
  prefix (a ++ b) s = true -> prefix a s = true.
Proof.
  revert s; induction a as [|x a IH]; intros s H.
  - now destruct s.
  - destruct s as [|y s]; simpl in *; [discriminate|].
    destruct (ascii_dec x y); [now apply IH | discriminate].
Qed.

Lemma includes_cons (c : ascii) (s needle : string) :
  includes (String c s) needle
  = if prefix needle (String c s) then true else includes s needle.
Proof. reflexivity. Qed.

Lemma includes_append_weaken (a b s : string) :
  includes s (a ++ b) = true -> includes s a = true.
Proof.
  induction s as [|y s IH].
  - unfold includes. destruct (prefix (a ++ b) "") eqn:P; [|discriminate].
    now rewrite (prefix_append_weaken _ _ _ P).
  - rewrite !includes_cons.
    destruct (prefix (a ++ b) (String y s)) eqn:P.
    + now rewrite (prefix_append_weaken _ _ _ P).
    + destruct (prefix a (String y s)); [reflexivity | exact IH].
Qed.

Lemma digit_not_space (c : ascii) : is_digit c = true -> is_space c = false.
Proof.
  unfold is_digit, is_space, in_range.
  rewrite andb_true_iff, !N.leb_le. intros [H1 H2].
  destruct (N.leb_spec 9 (code c)), (N.leb_spec (code c) 13),
    (N.eqb_spec (code c) 32), (N.eqb_spec (code c) 160); simpl; try reflexivity; lia.
Qed.

Lemma digit_value_bounds (c : ascii) :
  is_digit c = true -> (0 <= digit_value c <= 9)%Z.
Proof.
  unfold is_digit, in_range, digit_value.
  rewrite andb_true_iff, !N.leb_le. lia.
Qed.

Lemma takeWhile_all (p : ascii -> bool) (s : string) :
  forallb p s = true -> takeWhile p s = s.
Proof.
  induction s as [|c s IH]; simpl; [reflexivity|].
  rewrite andb_true_iff. intros [Hc Hs]. now rewrite Hc, IH.
Qed.

Lemma filter_all (p : ascii -> bool) (s : string) : forallb p (filter p s) = true.
Proof.
  induction s as [|c s IH]; simpl; [reflexivity|].
  destruct (p c) eqn:E; simpl; [now rewrite E|assumption].
Qed.

Lemma decimal_from_nonneg (s : string) :
  forall acc, (0 <= acc)%Z -> forallb is_digit s = true -> (0 <= decimal_from acc s)%Z.
Proof.
  induction s as [|c s IH]; cbn [decimal_from forallb]; intros acc Hacc H; [assumption|].
  apply andb_true_iff in H as [Hc Hs].
  apply IH; [|assumption]. pose proof (digit_value_bounds c Hc). lia.
Qed.

Lemma toNumber_small (n : Z) : (n < 2 ^ 53)%Z -> toNumber n = n.
Proof. intros H. unfold toNumber. apply Z.ltb_lt in H. now rewrite H. Qed.

Lemma toNumber_nonneg (n : Z) : (0 <= n)%Z -> (0 <= toNumber n)%Z.
Proof.
  intros H. unfold toNumber. destruct (n <? 2 ^ 53)%Z; [exact H|].
  apply Z.min_glb; [|apply Z.pow_nonneg; lia].
  apply Z.shiftl_nonneg.
  assert (Hq : (0 <= Z.shiftr n (Z.log2 n - 52))%Z) by now apply Z.shiftr_nonneg.
  destruct (_ || _); lia.
Qed.

(** On a string of digits [parseInt] reads the whole string. *)
Lemma parseInt10_digits (s : string) :
  forallb is_digit s = true ->
  parseInt10 s = match s with
                 | EmptyString => None
                 | _ => Some (toNumber (decimal_from 0 s))
                 end.
Proof.
  destruct s as [|c s]; [reflexivity|].
  intros H. pose proof H as Hall.
  simpl in H. apply andb_true_iff in H as [Hc Hs].
  unfold parseInt10. simpl trimStart. rewrite (digit_not_space c Hc).
  assert (Hsign : match String c s with
                  | String "-"%char r => (true, r)
                  | String "+"%char r => (false, r)
                  | _ => (false, String c s)
                  end = (false, String c s)).
  { destruct c as [[] [] [] [] [] [] [] []]; try reflexivity;
      exfalso; clear -Hc; vm_compute in Hc; discriminate. }
  rewrite Hsign. rewrite (takeWhile_all _ _ Hall). reflexivity.
Qed.

(** A fragment parses to the Number of the decimal value of its digits, 0
    without any. *)
Lemma parseFragment_decimal (v : string) :
  parseFragment v = toNumber (decimal_from 0 (filter is_digit v)).
Proof.
  unfold parseFragment. rewrite (parseInt10_digits _ (filter_all is_digit v)).
  now destruct (filter is_digit v).
Qed.

Lemma parseFragment_nonneg (v : string) : (0 <= parseFragment v)%Z.
Proof.
  rewrite parseFragment_decimal. apply toNumber_nonneg.
  apply decimal_from_nonneg; [lia | apply filter_all].
Qed.

Lemma in_firstn {A} (n : nat) (l : list A) (x : A) : In x (firstn n l) -> In x l.
Proof.
  intros H. rewrite <- (firstn_skipn n l). apply in_or_app. now left.
Qed.

Lemma pad3_length (a : list Z) : 3 <= List.length (pad3 a).
Proof. unfold pad3. rewrite length_app, repeat_length. lia. Qed.

Lemma triple_length (a : list Z) : List.length (triple a) = 3.
Proof.
  unfold triple. rewrite length_firstn. pose proof (pad3_length a). lia.
Qed.

(** ** Version comparator *)

Lemma try_catch_recovers {A} (body : Completion A) (fallback : A) :
  exists a, try_catch body (fun _ => Normal fallback) = Normal a.
Proof. destruct body as [a|e]; simpl; eauto. Qed.

(** [isVersionSupported] never completes abruptly. *)
Lemma isVersionSupported_total (currentVersion minimumVersion : JSValue) :
  exists supported, isVersionSupported currentVersion minimumVersion = Normal supported.
Proof.
  unfold isVersionSupported.
  destruct (negb (truthy minimumVersion)); [eauto | apply try_catch_recovers].
Qed.

(** The [try] block throws exactly when a string method is called on a
    value that is not a string. *)
Lemma isVersionSupported_body_throws (currentVersion minimumVersion : JSValue) :
  (exists e, isVersionSupported_body currentVersion minimumVersion = Throw e)
  <-> (truthy currentVersion = true /\ forall s, currentVersion <> JSString s)
      \/ (forall s, minimumVersion <> JSString s).
Proof.
  unfold isVersionSupported_body, cleanVersion. split.
  - intros [e H].
    destruct minimumVersion as [| |mb|mn|ms]; try (right; discriminate).
    left.
    destruct currentVersion as [| |cb|cn|cs]; cbn [truthy] in *.
    + simpl in H. destruct (stripOperator (trim ms)); discriminate.
    + simpl in H. destruct (stripOperator (trim ms)); discriminate.
    + destruct cb; [split; [reflexivity | discriminate]|].
      simpl in H. destruct (stripOperator (trim ms)); discriminate.
    + destruct (negb (cn =? 0)%Z); [split; [reflexivity | discriminate]|].
      simpl in H. destruct (stripOperator (trim ms)); discriminate.
    + destruct (negb (cs =? "")); simpl in H;
        destruct (stripOperator (trim ms)); discriminate.
  - intros [[Ht Hns] | Hns].
    + rewrite Ht. simpl.
      destruct currentVersion as [| |cb|cn|cs]; simpl; eauto.
      exfalso; now apply (Hns cs).
    + destruct (negb (truthy currentVersion)); simpl.
      * destruct minimumVersion as [| |mb|mn|ms]; simpl; eauto.
        exfalso; now apply (Hns ms).
      * destruct (string_receiver currentVersion); simpl; eauto.
        destruct minimumVersion as [| |mb|mn|ms]; simpl; eauto.
        exfalso; now apply (Hns ms).
Qed.

(** C5. Whenever a step of the version comparison (cleaning the current
    version, stripping the constraint operator, parsing, comparing)
    throws, [isVersionSupported] does not propagate the error: it
    completes normally and returns [true]. *)
Theorem isVersionSupported_fail_open (currentVersion minimumVersion : JSValue) (e : JSError) :
  isVersionSupported_body currentVersion minimumVersion = Throw e ->
  isVersionSupported currentVersion minimumVersion = Normal true.
Proof.
  intros H. unfold isVersionSupported.
  destruct (negb (truthy minimumVersion)); [reflexivity|].
  now rewrite H.
Qed.

Lemma isVersionSupported_fail_open_witness :
  isVersionSupported_body (JSNumber 120) (JSString ">=90.0.0") = Throw TypeError
  /\ isVersionSupported (JSNumber 120) (JSString ">=90.0.0") = Normal true.
Proof.
  split; [reflexivity|].
  apply (isVersionSupported_fail_open _ _ TypeError). reflexivity.
Defined.

(** C7, as stated, fails: [parseVersion] neither pads nor truncates. *)
Lemma parseVersion_not_three_components :
  parseVersion "120" = [120%Z]
  /\ parseVersion "1.2.3.4" = [1%Z; 2%Z; 3%Z; 4%Z]
  /\ ~ (forall v, List.length (parseVersion v) = 3).
Proof.
  split; [reflexivity|]. split; [reflexivity|].
  intros H. specialize (H "120"). discriminate H.
Qed.

(** C7, amended. [parseVersion v] has one component per [.]-separated
    fragment of [v] (at least one), in the same order, each non-negative:
    the decimal value of the digits of its fragment whenever that value is
    below 2^53 (0 when the fragment has no digit).  It neither pads nor
    truncates: it is [compareVersions] that brings an array to three
    components, padding with 0 and reading the first three. *)
Theorem parseVersion_per_fragment (v : string) :
  List.length (parseVersion v) = List.length (split "."%char v)
  /\ 1 <= List.length (parseVersion v)
  /\ Forall (fun n => (0 <= n)%Z) (parseVersion v)
  /\ (forall i f,
         nth_error (split "."%char v) i = Some f ->
         (decimal_from 0 (filter is_digit f) < 2 ^ 53)%Z ->
         nth_error (parseVersion v) i = Some (decimal_from 0 (filter is_digit f)))
  /\ List.length (triple (parseVersion v)) = 3
  /\ Forall (fun n => (0 <= n)%Z) (triple (parseVersion v)).
Proof.
  assert (Hnn : Forall (fun n => (0 <= n)%Z) (parseVersion v)).
  { unfold parseVersion. apply Forall_forall. intros n Hin.
    apply in_map_iff in Hin as [f [<- _]]. apply parseFragment_nonneg. }
  split; [|split; [|split; [|split; [|split]]]].
  - unfold parseVersion. apply length_map.
  - unfold parseVersion. rewrite length_map.
    destruct v as [|c v]; simpl; [lia|].
    destruct (Ascii.eqb c "."); simpl; [lia|].
    destruct (split "." v); simpl; lia.
  - exact Hnn.
  - intros i f Hf Hsmall. unfold parseVersion.
    rewrite nth_error_map, Hf. cbn [option_map].
    now rewrite parseFragment_decimal, toNumber_small.
  - apply triple_length.
  - unfold triple, pad3. apply Forall_forall. intros n Hin.
    apply in_firstn in Hin. apply in_app_or in Hin as [Hin | Hin].
    + revert n Hin. now apply Forall_forall.
    + apply repeat_spec in Hin. lia.
Qed.

Lemma parseVersion_per_fragment_witness :
  nth_error (parseVersion "12a.b.3-beta4") 2 = Some 34%Z.
Proof.
  apply (proj1 (proj2 (proj2 (proj2 (parseVersion_per_fragment "12a.b.3-beta4"))))
           2 "3-beta4" eq_refl).
  reflexivity.
Defined.

(** C8. Under the caret operator a smaller major fails, a larger major
    passes whatever the minor and patch are, and with equal majors the
    result is the lexicographic comparison of (minor, patch). *)
Theorem compareVersions_caret (curMajor curMinor curPatch minMajor minMinor minPatch : Z) :
  let current := [curMajor; curMinor; curPatch] in
  let minimum := [minMajor; minMinor; minPatch] in
  ((curMajor < minMajor)%Z -> compareVersions current minimum "^" = false)
  /\ ((curMajor > minMajor)%Z -> compareVersions current minimum "^" = true)
  /\ (curMajor = minMajor ->
      (compareVersions current minimum "^" = true
       <-> (curMinor > minMinor)%Z \/ (curMinor = minMinor /\ (curPatch >= minPatch)%Z))).
Proof.
  cbv zeta. unfold compareVersions. cbn [String.eqb Ascii.eqb Bool.eqb].
  unfold major, minor, patch, pad3. cbn [List.length Nat.sub repeat app nth].
  split; [|split].
  - intros H. destruct (Z.eqb_spec curMajor minMajor); simpl; lia.
  - intros H. destruct (Z.eqb_spec curMajor minMajor); simpl; lia.
  - intros ->. rewrite Z.eqb_refl. cbn [negb].
    destruct (Z.gtb_spec curMinor minMinor) as [Hgt | Hle].
    + split; [intros _; left; lia | reflexivity].
    + destruct (Z.ltb_spec curMinor minMinor) as [Hlt | Hge].
      * split; [discriminate | lia].
      * rewrite Z.geb_le. split; [right; lia | lia].
Qed.

Lemma compareVersions_caret_witness :
  compareVersions [89%Z; 9%Z; 9%Z] [90%Z; 0%Z; 0%Z] "^" = false
  /\ compareVersions [91%Z; 0%Z; 0%Z] [90%Z; 5%Z; 7%Z] "^" = true
  /\ compareVersions [90%Z; 5%Z; 8%Z] [90%Z; 5%Z; 7%Z] "^" = true.
Proof.
  split; [|split].
  - apply (proj1 (compareVersions_caret 89 9 9 90 0 0)). lia.
  - apply (proj1 (proj2 (compareVersions_caret 91 0 0 90 5 7))). lia.
  - apply (proj2 (proj2 (compareVersions_caret 90 5 8 90 5 7)) eq_refl). right. lia.
Defined.

(** ** Identity extractor *)

Lemma includes_unfold (s needle : string) :
  includes s needle
  = if prefix needle s then true
    else match s with
         | EmptyString => false
         | String _ rest => includes rest needle
         end.
Proof. now destruct s. Qed.

Lemma prefix_spec (p s : string) :
  prefix p s = true <-> exists post, s = p ++ post.
Proof.
  revert s; induction p as [|x p IH]; intros s.
  - split; [intros _; now exists s | now destruct s].
  - destruct s as [|y s]; simpl.
    + split; [discriminate | intros [post H]; discriminate].
    + destruct (ascii_dec x y) as [-> | Hne].
      * rewrite IH. split; intros [post H]; exists post.
        -- now rewrite H.
        -- now inversion H.
      * split; [discriminate | intros [post H]; simpl in H; congruence].
Qed.

(** [includes] is the substring test. *)
Lemma includes_spec (s needle : string) :
  includes s needle = true <-> exists pre post, s = pre ++ needle ++ post.
Proof.
  split.
  - induction s as [|c s IH]; rewrite includes_unfold.
    + destruct (prefix needle "") eqn:P; [|discriminate].
      intros _. apply prefix_spec in P as [post P]. now exists "", post.
    + destruct (prefix needle (String c s)) eqn:P.
      * intros _. apply prefix_spec in P as [post P]. now exists "", post.
      * intros H. destruct (IH H) as [pre [post E]].
        exists (String c pre), post. simpl. now rewrite E.
  - intros [pre [post E]]. subst s.
    induction pre as [|c pre IH]; rewrite includes_unfold.
    + assert (P : prefix needle ("" ++ needle ++ post) = true)
        by (apply prefix_spec; now exists post).
      now rewrite P.
    + destruct (prefix needle (String c pre ++ needle ++ post)); [reflexivity|].
      exact IH.
Qed.

Lemma includes_append_r (a b s : string) :
  includes s (a ++ b) = true -> includes s b = true.
Proof.
  rewrite !includes_spec. intros [pre [post E]].
  exists (pre ++ a), post. now rewrite E, !append_assoc.
Qed.

Lemma detectPlatform_desktop (userAgent : string) :
  includes userAgent "Windows" = true \/ includes userAgent "Linux" = true
  \/ includes userAgent "Macintosh" = true \/ includes userAgent "Mac OS" = true ->
  detectPlatform userAgent = Platform.DESKTOP.
Proof.
  unfold detectPlatform. intros [H | [H | [H | H]]]; rewrite H;
    repeat rewrite orb_true_r; reflexivity.
Qed.

(** C9. The desktop tokens are tested first: a user agent with one of
    [Windows], [Linux], [Macintosh], [Mac OS] is classified desktop whatever
    mobile tokens it also has; a user agent with [Linux; Android], which
    has the mobile token [Android], is classified desktop. *)
Theorem detectPlatform_desktop_before_mobile (userAgent : string) :
  (includes userAgent "Windows" = true \/ includes userAgent "Linux" = true
   \/ includes userAgent "Macintosh" = true \/ includes userAgent "Mac OS" = true ->
   detectPlatform userAgent = Platform.DESKTOP)
  /\ (includes userAgent "Linux; Android" = true ->
      includes userAgent "Android" = true
      /\ detectPlatform userAgent = Platform.DESKTOP).
Proof.
  split; [apply detectPlatform_desktop|].
  intros H. split.
  - exact (includes_append_r "Linux; " "Android" _ H).
  - apply detectPlatform_desktop. right; left.
    exact (includes_append_weaken "Linux" "; Android" _ H).
Qed.

Lemma detectPlatform_desktop_before_mobile_witness :
  includes Sample.androidUA "Mobile" = true
  /\ includes Sample.androidUA "Android" = true
  /\ detectPlatform Sample.androidUA = Platform.DESKTOP.
Proof.
  split; [reflexivity|].
  apply (proj2 (detectPlatform_desktop_before_mobile Sample.androidUA)). reflexivity.
Defined.

Lemma selectedDetector_in (userAgent : string) (detector : Detector) :
  selectedDetector userAgent = Some detector ->
  In detector supportedBrowserDetectors /\ condition detector userAgent = true.
Proof. unfold selectedDetector. apply find_some. Qed.

(** C10. When the detector the loop stops at has no version match in the
    user agent, the result keeps that detector's browser and the version
    is ['0.0.0']; so a user agent with [Line] and [Chrome], none of the
    Edge, Opera, Samsung and Brave markers and no [Line/x.y.z] is LINE
    with version ['0.0.0']. *)
Theorem detectBrowser_version_fallback (userAgent : string) :
  (forall detector,
      selectedDetector userAgent = Some detector ->
      regexMatch (versionRegex detector) userAgent = None ->
      condition detector userAgent = true
      /\ detectBrowser userAgent = (browser detector, "0.0.0"))
  /\ (includes userAgent "Line" = true ->
      includes userAgent "Chrome" = true ->
      includes userAgent "Edg" = false ->
      includes userAgent "OPR" = false ->
      includes userAgent "SamsungBrowser" = false ->
      includes userAgent "Brave" = false ->
      regexMatch {| literal := "Line/"; components := 3 |} userAgent = None ->
      detectBrowser userAgent = (SupportedBrowser.LINE, "0.0.0")).
Proof.
  split.
  - intros detector Hsel Hno.
    destruct (selectedDetector_in _ _ Hsel) as [Hin Hcond].
    split; [exact Hcond|].
    unfold detectBrowser. rewrite Hsel. unfold detectedVersion. rewrite Hno.
    unfold supportedBrowserDetectors in Hin. simpl in Hin.
    repeat (destruct Hin as [<- | Hin]; [reflexivity|]). contradiction.
  - intros HL HC HE HO HS HB Hno.
    unfold detectBrowser, selectedDetector, supportedBrowserDetectors.
    cbn [find condition]. rewrite HL, HC, HE, HO, HS, HB. cbn [orb andb negb].
    unfold detectedVersion. cbn [versionRegex customVersionProcessor browser].
    now rewrite Hno.
Qed.

Lemma detectBrowser_version_fallback_witness :
  detectBrowser "Mozilla/5.0 (Linux; Android 13) Chrome/118.0.0.0 Mobile Safari/537.36 Line"
  = (SupportedBrowser.LINE, "0.0.0")
  /\ detectBrowser "Mozilla/5.0 (X11; Linux x86_64; rv:109.0) Gecko/20100101 Firefox"
     = (SupportedBrowser.FIREFOX, "0.0.0").
Proof.
  split.
  - apply (proj2 (detectBrowser_version_fallback _)); reflexivity.
  - refine (proj2 (proj1 (detectBrowser_version_fallback _)
             {| condition := fun userAgent => includes userAgent "Firefox";
                browser := SupportedBrowser.FIREFOX;
                versionRegex := {| literal := "Firefox/"; components := 2 |};
                customVersionProcessor := Some appendPatchZero |} _ _));
      reflexivity.
Defined.

Lemma scanBrands_first_match (pre post : list Brand) (b : Brand)
  (text : string) (kind : BrowserType) :
  Forall (fun x => exists t, brand x = JSString t /\ brandKind (toLowerCase t) = None) pre ->
  brand b = JSString text ->
  brandKind (toLowerCase text) = Some kind ->
  scanBrands (pre ++ b :: post)%list = Normal (Some (kind, brand_version b)).
Proof.
  intros Hpre Hb Hk. induction Hpre as [|x pre [t [Ht Hnone]] _ IH]; simpl.
  - now rewrite Hb; simpl; rewrite Hk.
  - now rewrite Ht; simpl; rewrite Hnone.
Qed.

(** C1, as stated, fails: with a Chrome-like brand listed before an
    Edge-like one the detected kind is CHROME. *)
Lemma brand_order_matters :
  chromeLike (toLowerCase "Google Chrome") = true
  /\ edgeLike (toLowerCase "Microsoft Edge") = true
  /\ detectBrowserFromClientHints (Sample.hinted [Sample.chromeBrand; Sample.edgeBrand])
     = Normal (Some (SupportedBrowser.CHROME, JSString "120"))
  /\ detectBrowserFromClientHints (Sample.hinted [Sample.edgeBrand; Sample.chromeBrand])
     = Normal (Some (SupportedBrowser.EDGE, JSString "121")).
Proof. repeat split; reflexivity. Qed.

(** C1, amended. The scan follows the list: it stops at the first brand
    whose lower-cased name passes one of the four tests, and returns the
    kind and version of that brand.  The order Edge-like, Samsung-like,
    Chrome-like (a name without [chromium]), Firefox-like is the order of
    the tests on one name. *)
Theorem detectBrowserFromClientHints_first_match :
  (forall navigator data (pre : list Brand) b post text kind,
      userAgentData navigator = Some data ->
      brands data = Some (pre ++ b :: post)%list ->
      Forall (fun x => exists t, brand x = JSString t
                                 /\ brandKind (toLowerCase t) = None) pre ->
      brand b = JSString text ->
      brandKind (toLowerCase text) = Some kind ->
      detectBrowserFromClientHints navigator = Normal (Some (kind, brand_version b)))
  /\ (forall brandName,
         (edgeLike brandName = true -> brandKind brandName = Some SupportedBrowser.EDGE)
         /\ (edgeLike brandName = false -> samsungLike brandName = true ->
             brandKind brandName = Some SupportedBrowser.SAMSUNG)
         /\ (edgeLike brandName = false -> samsungLike brandName = false ->
             chromeLike brandName = true ->
             brandKind brandName = Some SupportedBrowser.CHROME)
         /\ (edgeLike brandName = false -> samsungLike brandName = false ->
             chromeLike brandName = false -> firefoxLike brandName = true ->
             brandKind brandName = Some SupportedBrowser.FIREFOX)
         /\ (edgeLike brandName = false -> samsungLike brandName = false ->
             chromeLike brandName = false -> firefoxLike brandName = false ->
             brandKind brandName = None)).
Proof.
  split.
  - intros navigator data pre b post text kind Hdata Hbrands Hpre Hb Hk.
    unfold detectBrowserFromClientHints, detectBrowserFromClientHints_body.
    rewrite Hdata, Hbrands.
    now rewrite (scanBrands_first_match pre post b text kind Hpre Hb Hk).
  - intros brandName. unfold brandKind.
    repeat split; intros; repeat match goal with H : _ = _ |- _ => rewrite H; clear H end;
      reflexivity.
Qed.

Lemma detectBrowserFromClientHints_first_match_witness :
  detectBrowserFromClientHints
    (Sample.hinted [Sample.notABrand; Sample.chromiumBrand; Sample.chromeBrand; Sample.edgeBrand])
  = Normal (Some (SupportedBrowser.CHROME, JSString "120")).
Proof.
  refine (proj1 detectBrowserFromClientHints_first_match
            (Sample.hinted [Sample.notABrand; Sample.chromiumBrand;
                            Sample.chromeBrand; Sample.edgeBrand])
            (Sample.hints [Sample.notABrand; Sample.chromiumBrand;
                           Sample.chromeBrand; Sample.edgeBrand])
            [Sample.notABrand; Sample.chromiumBrand] Sample.chromeBrand [Sample.edgeBrand]
            "Google Chrome" SupportedBrowser.CHROME eq_refl eq_refl _ eq_refl eq_refl).
  repeat constructor.
  - exists "Not A(Brand". split; reflexivity.
  - exists "Chromium". split; reflexivity.
Defined.

(** ** Compatibility evaluator *)

Lemma detectBrowserFromClientHints_total (navigator : Navigator) :
  exists r, detectBrowserFromClientHints navigator = Normal r.
Proof. apply try_catch_recovers. Qed.

Lemma detectPlatformFromClientHints_total (navigator : Navigator) :
  exists r, detectPlatformFromClientHints navigator = Normal r.
Proof. apply try_catch_recovers. Qed.

Lemma parseUserAgent_total (navigator : Navigator) (userAgent : string) :
  exists identity, parseUserAgent navigator userAgent = Normal identity.
Proof.
  unfold parseUserAgent.
  destruct (detectBrowserFromClientHints_total navigator) as [r ->]. simpl.
  destruct r as [[hintName hintVersion]|]; [|eauto].
  destruct (detectPlatformFromClientHints_total navigator) as [p ->]. simpl. eauto.
Qed.

(** Detection and evaluation never throw past the service. *)
Lemma getBrowserCompatibilityInfo_total (window : Window)
  (config : BrowserCompatibilityConfig) :
  exists info, getBrowserCompatibilityInfo window config = Normal info.
Proof.
  unfold getBrowserCompatibilityInfo.
  destruct (parseUserAgent_total (navigator window) (nav_userAgent (navigator window)))
    as [identity ->]. simpl.
  destruct (getMinimumVersion config (id_name identity)) as [minimum|]; simpl; [|eauto].
  destruct (isVersionSupported_total (id_version identity) (JSString minimum))
    as [supported ->]. simpl. eauto.
Qed.

Lemma getMinimumVersion_none (config : BrowserCompatibilityConfig) (kind : BrowserType) :
  getMinimumVersion config kind = None
  <-> kind = SupportedBrowser.LINE \/ kind = SupportedBrowser.UNKNOWN.
Proof.
  destruct kind; simpl; split; intros H; auto; try discriminate;
    destruct H; discriminate.
Qed.

(** C6. In a [BrowserInfo] built by [getBrowserCompatibilityInfo],
    [minimumVersion] is [null] exactly when the detected kind has no entry
    in the configured table, that is when it is LINE or UNKNOWN, and then
    [isSupported] is [false]. *)
Theorem minimumVersion_null_iff_unconfigured (window : Window)
  (config : BrowserCompatibilityConfig) (info : BrowserInfo) :
  getBrowserCompatibilityInfo window config = Normal info ->
  (minimumVersion info = None <-> getMinimumVersion config (name info) = None)
  /\ (minimumVersion info = None
      <-> name info = SupportedBrowser.LINE \/ name info = SupportedBrowser.UNKNOWN)
  /\ (minimumVersion info = None -> isSupported info = false).
Proof.
  unfold getBrowserCompatibilityInfo.
  destruct (parseUserAgent (navigator window) (nav_userAgent (navigator window)))
    as [identity|e]; [|discriminate]. cbn [bind].
  destruct (getMinimumVersion config (id_name identity)) as [minimum|] eqn:Hmin.
  - destruct (isVersionSupported (id_version identity) (JSString minimum))
      as [supported|e]; [|discriminate]. cbn [bind].
    intros H. injection H as <-. cbn [minimumVersion name isSupported].
    rewrite Hmin. rewrite <- (getMinimumVersion_none config), Hmin.
    repeat split; discriminate.
  - cbn [bind]. intros H. injection H as <-. cbn [minimumVersion name isSupported].
    rewrite Hmin. rewrite <- (getMinimumVersion_none config), Hmin.
    repeat split; reflexivity.
Qed.

Lemma minimumVersion_null_iff_unconfigured_witness :
  exists info,
    getBrowserCompatibilityInfo
      (Sample.window "https://example.com/app?lang=en" Sample.lineUA) Sample.config
    = Normal info
    /\ name info = SupportedBrowser.LINE
    /\ minimumVersion info = None
    /\ isSupported info = false.
Proof.
  eexists. split; [reflexivity|]. split; [reflexivity|]. split; [reflexivity|].
  refine (proj2 (proj2 (minimumVersion_null_iff_unconfigured
            (Sample.window "https://example.com/app?lang=en" Sample.lineUA)
            Sample.config _ eq_refl)) eq_refl).
Defined.

(** ** The URL API *)

Lemma lacks_app (sep : ascii) (a b : string) :
  lacks sep (a ++ b) = lacks sep a && lacks sep b.
Proof.
  unfold lacks. induction a as [|c a IH]; simpl; [reflexivity|].
  now rewrite IH, andb_assoc.
Qed.

Lemma cut_lacks (sep : ascii) (s : string) :
  lacks sep s = true -> URL.cut sep s = (s, None).
Proof.
  unfold lacks. induction s as [|c s IH]; simpl; [reflexivity|].
  rewrite andb_true_iff, negb_true_iff. intros [Hc Hs]. now rewrite Hc, IH.
Qed.

Lemma cut_app (sep : ascii) (a b : string) :
  lacks sep a = true -> URL.cut sep (a ++ String sep b) = (a, Some b).
Proof.
  unfold lacks. induction a as [|c a IH]; simpl.
  - now rewrite Ascii.eqb_refl.
  - rewrite andb_true_iff, negb_true_iff. intros [Hc Hs]. now rewrite Hc, IH.
Qed.

(** [cut] splits at the first separator: nothing is lost, and the part
    before has no separator. *)
Lemma cut_spec (sep : ascii) (s : string) :
  lacks sep (fst (URL.cut sep s)) = true
  /\ s = fst (URL.cut sep s)
         ++ match snd (URL.cut sep s) with
            | Some after => String sep after
            | None => ""
            end.
Proof.
  unfold lacks. induction s as [|c s [IH1 IH2]]; simpl; [now split|].
  destruct (Ascii.eqb_spec c sep) as [-> | Hne]; simpl; [now split|].
  destruct (URL.cut sep s) as [before after]; simpl in *.
  rewrite IH1. split.
  - apply Ascii.eqb_neq in Hne. now rewrite Hne.
  - now rewrite <- IH2.
Qed.

Lemma parse_wellFormed (href : string) : URL.wellFormed (URL.parse href).
Proof.
  unfold URL.wellFormed, URL.parse.
  destruct (cut_spec "#" href) as [H1 _].
  destruct (URL.cut "#" href) as [beforeHash fragment]; simpl in H1.
  destruct (cut_spec "?" beforeHash) as [H2 H3].
  destruct (URL.cut "?" beforeHash) as [base query]; simpl in *.
  rewrite H3, lacks_app in H1. apply andb_true_iff in H1 as [Hb Hq].
  repeat split; try assumption.
  destruct query as [q|]; [|exact I].
  exact Hq.
Qed.

(** Parsing what [toString] printed gives the URL back. *)
Lemma parse_toString (url : URL.t) :
  URL.wellFormed url -> URL.parse (URL.toString url) = url.
Proof.
  destruct url as [base query fragment]. unfold URL.wellFormed, URL.toString, URL.parse.
  cbn [URL.base URL.query URL.fragment]. intros [Hb1 [Hb2 Hq]].
  assert (Hhead : lacks "#" (base ++ match query with
                                     | Some q => "?" ++ q
                                     | None => ""
                                     end) = true).
  { rewrite lacks_app, Hb2. destruct query as [q|]; simpl; [exact Hq | reflexivity]. }
  assert (Hcut : URL.cut "?" (base ++ match query with
                                      | Some q => "?" ++ q
                                      | None => ""
                                      end) = (base, query)).
  { destruct query as [q|].
    - exact (cut_app "?" base q Hb1).
    - rewrite append_empty_r. exact (cut_lacks "?" base Hb1). }
  rewrite <- append_assoc.
  destruct fragment as [f|].
  - change ("#" ++ f) with (String "#" f). rewrite (cut_app "#" _ f Hhead).
    now rewrite Hcut.
  - rewrite append_empty_r, (cut_lacks "#" _ Hhead). now rewrite Hcut.
Qed.

Ltac each_code_unit c :=
  destruct c as [[] [] [] [] [] [] [] []]; vm_compute; repeat split;
  try reflexivity; try discriminate.

Lemma unreserved_is_plain (c : ascii) :
  URL.unreserved c = true ->
  Ascii.eqb c "+" = false /\ Ascii.eqb c "%" = false /\ Ascii.eqb c "&" = false
  /\ Ascii.eqb c "=" = false /\ Ascii.eqb c "#" = false.
Proof. each_code_unit c. Qed.

Lemma escape_digits (c : ascii) :
  let h := URL.hexDigit (code c / 16) in
  let l := URL.hexDigit (code c mod 16) in
  URL.hexValue h = Some (code c / 16)%N
  /\ URL.hexValue l = Some (code c mod 16)%N
  /\ ascii_of_N (16 * (code c / 16) + code c mod 16) = c
  /\ URL.unreserved h = true /\ URL.unreserved l = true.
Proof. each_code_unit c. Qed.

Lemma percentDecode_plain (c : ascii) (rest : string) :
  Ascii.eqb c "%" = false ->
  URL.percentDecode (String c rest) = String c (URL.percentDecode rest).
Proof. intros H. cbn [URL.percentDecode]. now rewrite H. Qed.

Lemma percentDecode_escape (h l : ascii) (a b : N) (rest : string) :
  URL.hexValue h = Some a -> URL.hexValue l = Some b ->
  URL.percentDecode (String "%" (String h (String l rest)))
  = String (ascii_of_N (16 * a + b)) (URL.percentDecode rest).
Proof. intros Ha Hb. cbn [URL.percentDecode]. now rewrite Ascii.eqb_refl, Ha, Hb. Qed.

Lemma plusToSpace_plain (c : ascii) (rest : string) :
  Ascii.eqb c "+" = false ->
  URL.plusToSpace (String c rest) = String c (URL.plusToSpace rest).
Proof. intros H. cbn [URL.plusToSpace]. now rewrite H. Qed.

(** Decoding undoes encoding. *)
Lemma decode_encode (s : string) :
  URL.decodeComponent (URL.encodeComponent s) = s.
Proof.
  unfold URL.decodeComponent. induction s as [|c s IH]; [reflexivity|].
  cbn [URL.encodeComponent].
  destruct (URL.unreserved c) eqn:Hu.
  - destruct (unreserved_is_plain c Hu) as [Hplus [Hpct _]].
    now rewrite (plusToSpace_plain _ _ Hplus), (percentDecode_plain _ _ Hpct), IH.
  - destruct (Ascii.eqb_spec c " ") as [-> | Hsp].
    + cbn [URL.plusToSpace]. rewrite Ascii.eqb_refl.
      rewrite percentDecode_plain by reflexivity. now rewrite IH.
    + destruct (escape_digits c) as [Hh [Hl [Hback [Uh Ul]]]].
      destruct (unreserved_is_plain _ Uh) as [Hhp _].
      destruct (unreserved_is_plain _ Ul) as [Hlp _].
      rewrite plusToSpace_plain by reflexivity.
      rewrite (plusToSpace_plain _ _ Hhp), (plusToSpace_plain _ _ Hlp).
      rewrite (percentDecode_escape _ _ _ _ _ Hh Hl), Hback. now rewrite IH.
Qed.

(** An encoded component has none of the delimiters [&], [=], [#]. *)
Lemma encode_lacks (sep : ascii) (s : string) :
  sep = "&"%char \/ sep = "="%char \/ sep = "#"%char ->
  lacks sep (URL.encodeComponent s) = true.
Proof.
  intros Hsep. unfold lacks. induction s as [|c s IH]; [reflexivity|].
  cbn [URL.encodeComponent].
  destruct (URL.unreserved c) eqn:Hu.
  - destruct (unreserved_is_plain c Hu) as [_ [_ [Ha [He Hh]]]].
    cbn [forallb]. rewrite IH.
    destruct Hsep as [-> | [-> | ->]]; [rewrite Ha | rewrite He | rewrite Hh]; reflexivity.
  - destruct (escape_digits c) as [_ [_ [_ [Uh Ul]]]].
    destruct (unreserved_is_plain _ Uh) as [_ [_ [Ha [He Hh]]]].
    destruct (unreserved_is_plain _ Ul) as [_ [_ [Ha' [He' Hh']]]].
    destruct (Ascii.eqb c " "); cbn [forallb]; rewrite IH;
      destruct Hsep as [-> | [-> | ->]];
      rewrite ?Ha, ?He, ?Hh, ?Ha', ?He', ?Hh'; reflexivity.
Qed.

Lemma split_lacks (sep : ascii) (s : string) :
  lacks sep s = true -> split sep s = [s].
Proof.
  unfold lacks. induction s as [|c s IH]; simpl; [reflexivity|].
  rewrite andb_true_iff, negb_true_iff. intros [Hc Hs]. now rewrite Hc, IH.
Qed.

Lemma split_app (sep : ascii) (a b : string) :
  lacks sep a = true -> split sep (a ++ String sep b) = a :: split sep b.
Proof.
  unfold lacks. induction a as [|c a IH]; simpl.
  - now rewrite Ascii.eqb_refl.
  - rewrite andb_true_iff, negb_true_iff. intros [Hc Hs]. now rewrite Hc, IH.
Qed.

(** The text the serializer writes for one pair. *)
Lemma pair_text_spec (p : string * string) :
  let text := URL.encodeComponent (fst p) ++ "=" ++ URL.encodeComponent (snd p) in
  lacks "&" text = true
  /\ lacks "#" text = true
  /\ (text =? "") = false
  /\ URL.cut "=" text = (URL.encodeComponent (fst p), Some (URL.encodeComponent (snd p))).
Proof.
  cbv zeta. repeat split.
  - rewrite !lacks_app, !encode_lacks by auto. reflexivity.
  - rewrite !lacks_app, !encode_lacks by auto. reflexivity.
  - now destruct (URL.encodeComponent (fst p)).
  - apply (cut_app "=" (URL.encodeComponent (fst p))). apply encode_lacks. auto.
Qed.

(** The query parser reads back what the serializer wrote. *)
Lemma parseQuery_serializeQuery (params : list (string * string)) :
  URL.parseQuery (URL.serializeQuery params) = params.
Proof.
  unfold URL.serializeQuery, URL.parseQuery, join.
  induction params as [|p rest IH]; [reflexivity|].
  destruct (pair_text_spec p) as [Hamp [_ [Hne Hcut]]]. cbv zeta in *.
  assert (Hone : forall tail,
             flat_map
               (fun piece =>
                  if piece =? "" then []
                  else let '(n, v) := URL.cut "=" piece in
                       [(URL.decodeComponent n,
                         URL.decodeComponent
                           match v with Some v' => v' | None => "" end)])
               ((URL.encodeComponent (fst p) ++ "=" ++ URL.encodeComponent (snd p)) :: tail)
             = p :: flat_map
                 (fun piece =>
                    if piece =? "" then []
                    else let '(n, v) := URL.cut "=" piece in
                         [(URL.decodeComponent n,
                           URL.decodeComponent
                             match v with Some v' => v' | None => "" end)])
                 tail).
  { intros tail. cbn [flat_map]. rewrite Hne, Hcut, !decode_encode.
    now destruct p. }
  destruct rest as [|p' rest'].
  - cbn [map concat]. rewrite (split_lacks "&" _ Hamp). now rewrite Hone.
  - change (concat "&" (map _ (p :: p' :: rest')))
      with ((URL.encodeComponent (fst p) ++ "=" ++ URL.encodeComponent (snd p))
            ++ String "&"
                 (concat "&"
                    (map (fun q => URL.encodeComponent (fst q) ++ "="
                                   ++ URL.encodeComponent (snd q)) (p' :: rest')))).
    rewrite (split_app "&" _ _ Hamp), Hone. now rewrite IH.
Qed.

Lemma serializeQuery_lacks_hash (params : list (string * string)) :
  lacks "#" (URL.serializeQuery params) = true.
Proof.
  unfold URL.serializeQuery, join.
  induction params as [|p rest IH]; [reflexivity|].
  destruct (pair_text_spec p) as [_ [Hhash _]]. cbv zeta in Hhash.
  destruct rest as [|p' rest']; [exact Hhash|].
  change (concat "&" (map _ (p :: p' :: rest')))
    with ((URL.encodeComponent (fst p) ++ "=" ++ URL.encodeComponent (snd p))
          ++ String "&"
               (concat "&"
                  (map (fun q => URL.encodeComponent (fst q) ++ "="
                                 ++ URL.encodeComponent (snd q)) (p' :: rest')))).
  rewrite lacks_app, Hhash. exact IH.
Qed.

Lemma serializeQuery_nonempty (p : string * string) (rest : list (string * string)) :
  (URL.serializeQuery (p :: rest) =? "") = false.
Proof.
  unfold URL.serializeQuery, join. cbn [map concat].
  destruct rest; cbn [map]; now destruct (URL.encodeComponent (fst p)).
Qed.


(** ** Navigation policy *)

Lemma search_from_spec (s pattern : string) :
  forall i, (0 <= i)%Z ->
  if includes s pattern then (i <= search_from i s pattern)%Z
  else search_from i s pattern = (-1)%Z.
Proof.
  induction s as [|c s IH]; intros i Hi.
  - rewrite includes_unfold. unfold search_from.
    destruct (prefix pattern ""); [lia | reflexivity].
  - rewrite includes_unfold. cbn [search_from].
    destruct (prefix pattern (String c s)); [lia|].
    specialize (IH (i + 1)%Z ltac:(lia)).
    destruct (includes s pattern); [lia | exact IH].
Qed.

(** [s.search(pattern) < 0] says that [pattern] does not occur in [s]. *)
Lemma search_negative (s pattern : string) :
  (search s pattern <? 0)%Z = negb (includes s pattern).
Proof.
  unfold search. pose proof (search_from_spec s pattern 0%Z ltac:(lia)) as H.
  destruct (includes s pattern); simpl.
  - apply Z.ltb_ge. exact H.
  - now rewrite H.
Qed.

Lemma SupportedBrowser_eqb_eq (a b : BrowserType) :
  SupportedBrowser.eqb a b = true <-> a = b.
Proof. destruct a, b; simpl; split; intros H; try reflexivity; discriminate. Qed.

Lemma has_of_pair (url : URL.t) (name value : string) :
  In (name, value) (URL.searchParams url) -> URL.has url name = true.
Proof.
  intros H. unfold URL.has. apply existsb_exists.
  exists (name, value). split; [exact H | apply String.eqb_refl].
Qed.

(** C2. When the current URL carries the query parameter
    [openExternalBrowser], with whatever value, the check requests no
    navigation: neither a replace nor an assignment, for every user agent,
    hints and configuration. *)
Theorem marker_present_no_navigation (window : Window)
  (config : BrowserCompatibilityConfig) (value : string) :
  In ("openExternalBrowser", value) (URL.searchParams (URL.parse (href (location window)))) ->
  checkBrowserCompatibility window config = Normal [].
Proof.
  intros H. unfold checkBrowserCompatibility.
  now rewrite (has_of_pair _ _ _ H).
Qed.

Lemma marker_present_no_navigation_witness :
  checkBrowserCompatibility
    (Sample.window "https://example.com/app?lang=en&openExternalBrowser=1#top" Sample.lineUA)
    Sample.config
  = Normal [].
Proof.
  apply (marker_present_no_navigation _ _ "1"). vm_compute. right; left. reflexivity.
Defined.

Lemma takeWhile_lacks (sep : ascii) (p : ascii -> bool) (s : string) :
  (forall c, p c = true -> Ascii.eqb c sep = false) ->
  lacks sep (takeWhile p s) = true.
Proof.
  intros Hp. unfold lacks. induction s as [|c s IH]; simpl; [reflexivity|].
  destruct (p c) eqn:E; simpl; [|reflexivity]. now rewrite (Hp c E), IH.
Qed.

Lemma forallb_lacks (sep : ascii) (p : ascii -> bool) (s : string) :
  (forall c, p c = true -> Ascii.eqb c sep = false) ->
  forallb p s = true -> lacks sep s = true.
Proof.
  intros Hp. unfold lacks. induction s as [|c s IH]; simpl; [reflexivity|].
  rewrite andb_true_iff. intros [Hc Hs]. now rewrite (Hp c Hc), IH.
Qed.

Lemma schemeChar_plain (c : ascii) :
  URL.schemeChar c = true -> Ascii.eqb c "?" = false /\ Ascii.eqb c "#" = false.
Proof. each_code_unit c. Qed.

Lemma isAlpha_schemeChar (c : ascii) : URL.isAlpha c = true -> URL.schemeChar c = true.
Proof. unfold URL.schemeChar. now intros ->. Qed.

Lemma inside_authority_plain (c : ascii) :
  negb (URL.endsAuthority c) = true ->
  Ascii.eqb c "?" = false /\ Ascii.eqb c "#" = false.
Proof.
  unfold URL.endsAuthority. rewrite negb_true_iff, !orb_false_iff. tauto.
Qed.

(** The origin part of a valid base has no [?] and no [#]. *)
Lemma originOf_lacks (text : string) :
  URL.validBase text = true ->
  lacks "?" (URL.originOf text) = true /\ lacks "#" (URL.originOf text) = true.
Proof.
  unfold URL.validBase, URL.originOf.
  destruct (URL.cut ":" text) as [[|c rest] [after|]]; try discriminate.
  rewrite !andb_true_iff. intros [[[Hc Hrest] _] _].
  apply isAlpha_schemeChar in Hc.
  assert (Hscheme : forallb URL.schemeChar (String c rest) = true)
    by (simpl; now rewrite Hc, Hrest).
  rewrite !lacks_app.
  rewrite (forallb_lacks "?" _ _ (fun x H => proj1 (schemeChar_plain x H)) Hscheme).
  rewrite (forallb_lacks "#" _ _ (fun x H => proj2 (schemeChar_plain x H)) Hscheme).
  rewrite (takeWhile_lacks "?" _ _ (fun x H => proj1 (inside_authority_plain x H))).
  rewrite (takeWhile_lacks "#" _ _ (fun x H => proj2 (inside_authority_plain x H))).
  split; reflexivity.
Qed.

(** A serialized origin is its own origin part. *)
Lemma originOf_origin (scheme authority : string) :
  lacks ":" scheme = true ->
  forallb (fun x => negb (URL.endsAuthority x)) authority = true ->
  URL.originOf (scheme ++ "://" ++ authority) = scheme ++ "://" ++ authority.
Proof.
  intros Hscheme Hauthority. unfold URL.originOf.
  change (scheme ++ "://" ++ authority) with (scheme ++ String ":" ("//" ++ authority)).
  rewrite (cut_app ":" scheme _ Hscheme). cbn [drop append].
  now rewrite (takeWhile_all _ _ Hauthority).
Qed.

Example validBase_of_origins :
  URL.validBase "https://example.com" = true
  /\ URL.validBase "http://localhost:4200" = true
  /\ URL.originOf "http://localhost:4200" = "http://localhost:4200"
  /\ URL.validBase "null" = false
  /\ URL.validBase "" = false.
Proof. repeat split; reflexivity. Qed.

(** The URL built by [showIncompatibleBrowserError] and by
    [showIncompatibleBrowserVersionError] once the base is accepted. *)
Lemma error_url_spec (base : string) (current : URL.t) :
  URL.wellFormed current ->
  URL.validBase base = true ->
  let errorUrl := URL.setSearch (URL.resolved "/browser-error" base)
                                (URL.search current) in
  URL.toString errorUrl = URL.originOf base ++ "/browser-error" ++ URL.search current
  /\ URL.base errorUrl = URL.originOf base ++ "/browser-error"
  /\ URL.search errorUrl = URL.search current
  /\ URL.fragment errorUrl = None
  /\ URL.wellFormed errorUrl.
Proof.
  intros [_ [_ Hq]] Hvalid. cbv zeta.
  destruct (originOf_lacks base Hvalid) as [Ho1 Ho2].
  unfold URL.resolved. remember (URL.originOf base) as originText eqn:Eo. clear Eo.
  set (start := {| URL.base := originText ++ "/browser-error";
                   URL.query := None; URL.fragment := None |}).
  assert (Hbase : forall url value, URL.base (URL.setSearch url value) = URL.base url).
  { intros url value. unfold URL.setSearch. now destruct (value =? ""). }
  assert (Hfrag : forall url value,
             URL.fragment (URL.setSearch url value) = URL.fragment url).
  { intros url value. unfold URL.setSearch. now destruct (value =? ""). }
  assert (Hquery : URL.query (URL.setSearch start (URL.search current))
                   = match URL.query current with
                     | None | Some EmptyString => None
                     | Some q => Some q
                     end).
  { unfold URL.search. now destruct (URL.query current) as [[|c q]|]. }
  unfold URL.wellFormed, URL.toString. rewrite Hbase, Hfrag.
  unfold URL.search at 1 3. rewrite !Hquery.
  subst start. cbn [URL.base URL.fragment]. rewrite !lacks_app, Ho1, Ho2.
  unfold URL.search.
  destruct (URL.query current) as [[|c q]|];
    rewrite ?append_empty_r, ?append_assoc; repeat split; assumption.
Qed.







(* ===================================================================== *)
(** * Further properties *)
(* ===================================================================== *)

(** ** Version comparator *)

Lemma compare_at_least_lexGe (current minimum : list Z) :
  compare_at_least current minimum = true <-> lexGe current minimum.
Proof.
  unfold compare_at_least, lexGe.
  destruct (Z.gtb_spec (major current) (major minimum)); [split; [intros _; left|]; tauto || lia|].
  destruct (Z.ltb_spec (major current) (major minimum)); [split; [discriminate | lia]|].
  destruct (Z.gtb_spec (minor current) (minor minimum)); [split; [intros _; right|]; lia || tauto|].
  destruct (Z.ltb_spec (minor current) (minor minimum)); [split; [discriminate | lia]|].
  rewrite Z.geb_le. lia.
Qed.

Ltac split_comparisons :=
  rewrite ?Z.geb_leb, ?Z.gtb_ltb;
  repeat match goal with
    | |- context [(?a <? ?b)%Z] => destruct (Z.ltb_spec a b)
    | |- context [(?a <=? ?b)%Z] => destruct (Z.leb_spec a b)
    | |- context [(?a =? ?b)%Z] => destruct (Z.eqb_spec a b)
    end;
  cbn [negb orb andb]; try reflexivity; try lia.

Lemma compareVersions_any_operator (current minimum : list Z) (operator : string) :
  compareVersions current minimum operator = compare_at_least current minimum.
Proof.
  unfold compareVersions, compare_at_least.
  destruct (operator =? ">="); [reflexivity|].
  destruct (operator =? "^"); [split_comparisons|].
  destruct (operator =? "~"); [split_comparisons | reflexivity].
Qed.

(** X1. The operator does not change the comparison: under ['^'], ['~']
    and any other operator string [compareVersions] gives what ['>='] gives,
    the lexicographic order on (major, minor, patch); caret and tilde set no
    upper bound. *)
Theorem compareVersions_operator_irrelevant (current minimum : list Z) (operator : string) :
  compareVersions current minimum operator = compareVersions current minimum ">="
  /\ (compareVersions current minimum operator = true <-> lexGe current minimum).
Proof.
  rewrite !compareVersions_any_operator. split; [reflexivity|].
  apply compare_at_least_lexGe.
Qed.

Lemma nth_triple (i : nat) (a : list Z) :
  i < 3 -> nth i (pad3 (triple a)) 0%Z = nth i (pad3 a) 0%Z.
Proof.
  intros Hi. unfold pad3 at 1. rewrite triple_length. cbn [Nat.sub repeat].
  rewrite app_nil_r. unfold triple. rewrite nth_firstn.
  destruct (Nat.ltb_spec i 3); [reflexivity | lia].
Qed.

(** X2. [compareVersions] reads an array through its first three
    components, a missing one being 0: any fourth and later component is
    ignored. *)
Theorem compareVersions_reads_three (current minimum : list Z) (operator : string) :
  compareVersions current minimum operator
  = compareVersions (triple current) (triple minimum) operator
  /\ (forall extra extra' a b c x y z,
         compareVersions (a :: b :: c :: extra) (x :: y :: z :: extra') operator
         = compareVersions [a; b; c] [x; y; z] operator).
Proof.
  split.
  - unfold compareVersions, compare_at_least, major, minor, patch.
    now rewrite !nth_triple by lia.
  - intros extra extra' a b c x y z.
    unfold compareVersions, compare_at_least, major, minor, patch, pad3.
    cbn [List.length Nat.sub repeat app nth]. reflexivity.
Qed.

(** X3. Satisfaction is reflexive and monotone for every operator: a
    version satisfies itself as a constraint, and a version that is at
    least one satisfying the minimum satisfies it too (an upgrade never
    turns a supported version into an unsupported one). *)
Theorem compareVersions_monotone (newer current minimum : list Z) (op1 op2 op3 : string) :
  compareVersions current current op1 = true
  /\ (compareVersions newer current op1 = true ->
      compareVersions current minimum op2 = true ->
      compareVersions newer minimum op3 = true).
Proof.
  rewrite !compareVersions_any_operator, !compare_at_least_lexGe.
  unfold lexGe. split; lia.
Qed.

Lemma compareVersions_monotone_witness :
  compareVersions [121%Z; 0%Z; 0%Z] [90%Z; 4%Z; 1%Z] "~" = true.
Proof.
  apply (proj2 (compareVersions_monotone [121%Z; 0%Z; 0%Z] [120%Z; 5%Z] [90%Z; 4%Z; 1%Z]
                  ">=" "^" "~")); reflexivity.
Defined.

Lemma split_nonempty (sep : ascii) (s : string) : split sep s <> [].
Proof.
  destruct s as [|c s]; simpl; [discriminate|].
  destruct (Ascii.eqb c sep); [discriminate|].
  destruct (split sep s); discriminate.
Qed.

Lemma split_parts_lack (sep : ascii) (s : string) :
  Forall (fun part => lacks sep part = true) (split sep s).
Proof.
  induction s as [|c s IH]; simpl; [repeat constructor|].
  destruct (Ascii.eqb c sep) eqn:E; [constructor; [reflexivity | exact IH]|].
  destruct (split sep s) as [|h t]; [repeat constructor; unfold lacks; simpl; now rewrite E|].
  inversion IH as [|? ? Hh Ht]; subst. constructor; [|exact Ht].
  unfold lacks in *. simpl. now rewrite E, Hh.
Qed.

Lemma split_join (sep : ascii) (parts : list string) :
  parts <> [] ->
  Forall (fun part => lacks sep part = true) parts ->
  split sep (join (String sep "") parts) = parts.
Proof.
  unfold join. intros Hne Hall. induction Hall as [|p rest Hp Hrest IH]; [contradiction|].
  destruct rest as [|p' rest'].
  - cbn [concat]. exact (split_lacks sep p Hp).
  - change (concat (String sep "") (p :: p' :: rest'))
      with (p ++ String sep (concat (String sep "") (p' :: rest'))).
    rewrite (split_app sep _ _ Hp), IH; [reflexivity | discriminate].
Qed.

Lemma pad3_parts_spec (parts : list string) :
  Forall (fun part => lacks "." part = true) parts ->
  List.length (pad3_parts parts) = 3
  /\ Forall (fun part => lacks "." part = true) (pad3_parts parts).
Proof.
  intros Hall. unfold pad3_parts. split.
  - rewrite length_firstn, length_app, repeat_length. lia.
  - apply Forall_forall. intros part Hin. apply in_firstn in Hin.
    apply in_app_or in Hin as [Hin | Hin].
    + revert part Hin. now apply Forall_forall.
    + apply repeat_spec in Hin. now subst.
Qed.

(** X4. Whatever [cleanVersion] returns has exactly three dot-separated
    fragments, so the current version always reaches [compareVersions] as
    a three-component array. *)
Theorem cleanVersion_three_fragments (version : JSValue) (cleaned : string) :
  cleanVersion version = Normal cleaned ->
  List.length (split "."%char cleaned) = 3
  /\ List.length (parseVersion cleaned) = 3
  /\ triple (parseVersion cleaned) = parseVersion cleaned.
Proof.
  intros H.
  assert (Hthree : List.length (split "."%char cleaned) = 3).
  { unfold cleanVersion in H. destruct (negb (truthy version)).
    - injection H as <-. reflexivity.
    - destruct (string_receiver version) as [v|e]; [|discriminate]. cbn [bind] in H.
      match type of H with
      | Normal (join "." (pad3_parts (split _ ?stripped))) = _ =>
          destruct (pad3_parts_spec _ (split_parts_lack "." stripped)) as [Hlen Hall];
          remember (pad3_parts (split "."%char stripped)) as parts eqn:Eparts
      end.
      injection H as <-.
      rewrite (split_join "." parts); [exact Hlen | | exact Hall].
      intros E. rewrite E in Hlen. discriminate. }
  assert (Hparsed : List.length (parseVersion cleaned) = 3)
    by (unfold parseVersion; now rewrite length_map).
  repeat split; try assumption.
  unfold triple, pad3. rewrite Hparsed. cbn [Nat.sub repeat]. rewrite app_nil_r.
  rewrite <- Hparsed. apply firstn_all.
Qed.

Lemma cleanVersion_three_fragments_witness :
  cleanVersion (JSString "v120.0.6099.71") = Normal "120.0.6099"
  /\ List.length (parseVersion "120.0.6099") = 3.
Proof.
  split; [reflexivity|].
  apply (cleanVersion_three_fragments (JSString "v120.0.6099.71")). reflexivity.
Defined.

Lemma filter_cons_empty (p : ascii -> bool) (c : ascii) (s : string) :
  filter p (String c s) = "" <-> p c = false /\ filter p s = "".
Proof.
  simpl. destruct (p c); split; try discriminate; intuition discriminate.
Qed.

Lemma digitless_trimStart (s : string) :
  filter is_digit s = "" -> filter is_digit (trimStart s) = "".
Proof.
  induction s as [|c s IH]; [reflexivity|]. intros H. cbn [trimStart].
  destruct (is_space c); [|exact H].
  apply IH. now apply filter_cons_empty in H.
Qed.

Lemma digitless_trimEnd (s : string) :
  filter is_digit s = "" -> filter is_digit (trimEnd s) = "".
Proof.
  induction s as [|c s IH]; [reflexivity|]. intros H.
  apply filter_cons_empty in H as [Hc Hs]. specialize (IH Hs). cbn [trimEnd].
  destruct (trimEnd s) as [|c' t].
  - destruct (is_space c); [reflexivity|]. now apply filter_cons_empty.
  - now apply filter_cons_empty.
Qed.

Lemma digitless_trim (s : string) :
  filter is_digit s = "" -> filter is_digit (trim s) = "".
Proof. intros H. now apply digitless_trimEnd, digitless_trimStart. Qed.

Lemma digitless_drop (n : nat) (s : string) :
  filter is_digit s = "" -> filter is_digit (drop n s) = "".
Proof.
  revert s; induction n as [|n IH]; intros s H; [exact H|].
  destruct s as [|c s]; [reflexivity|]. cbn [drop].
  apply IH. now apply filter_cons_empty in H.
Qed.

Lemma digitless_drop_last (s : string) :
  filter is_digit s = "" -> filter is_digit (drop_last s) = "".
Proof.
  induction s as [|c s IH]; [reflexivity|]. intros H.
  apply filter_cons_empty in H as [Hc Hs]. cbn [drop_last].
  destruct s as [|c' s']; [reflexivity|].
  apply filter_cons_empty. split; [exact Hc | now apply IH].
Qed.

Lemma digitless_stripOperator (s : string) :
  filter is_digit s = "" -> filter is_digit (snd (stripOperator s)) = "".
Proof.
  intros H. unfold stripOperator.
  repeat match goal with
    | |- context [if ?b then _ else _] => destruct b
    end; cbn [snd];
    auto using digitless_trim, digitless_drop, digitless_drop_last.
Qed.

Lemma digitless_fragments (sep : ascii) (s : string) :
  filter is_digit s = "" ->
  Forall (fun part => filter is_digit part = "") (split sep s).
Proof.
  induction s as [|c s IH]; [repeat constructor|]. intros H.
  apply filter_cons_empty in H as [Hc Hs]. specialize (IH Hs). cbn [split].
  destruct (Ascii.eqb c sep); [now constructor|].
  destruct (split sep s) as [|h t]; [repeat constructor; now apply filter_cons_empty|].
  inversion IH; subst. constructor; [now apply filter_cons_empty | assumption].
Qed.

Lemma nth_pad3_forall (P : Z -> Prop) (a : list Z) (i : nat) :
  P 0%Z -> Forall P a -> P (nth i (pad3 a) 0%Z).
Proof.
  intros H0 Ha. rewrite Forall_forall in Ha.
  destruct (nth_in_or_default i (pad3 a) 0%Z) as [Hin | E]; [|rewrite E; exact H0].
  remember (nth i (pad3 a) 0%Z) as x eqn:Ex. clear Ex.
  unfold pad3 in Hin. apply in_app_or in Hin as [Hin | Hin].
  - now apply Ha.
  - apply repeat_spec in Hin. now rewrite Hin.
Qed.

Lemma parseVersion_nonneg (v : string) : Forall (fun n => (0 <= n)%Z) (parseVersion v).
Proof.
  unfold parseVersion. apply Forall_forall. intros n Hin.
  apply in_map_iff in Hin as [f [<- _]]. apply parseFragment_nonneg.
Qed.

Lemma parseVersion_digitless (v : string) :
  filter is_digit v = "" -> Forall (fun n => n = 0%Z) (parseVersion v).
Proof.
  intros H. unfold parseVersion. apply Forall_forall. intros n Hin.
  apply in_map_iff in Hin as [f [<- Hf]].
  pose proof (digitless_fragments "." v H) as Hall.
  rewrite Forall_forall in Hall. rewrite parseFragment_decimal, (Hall f Hf). reflexivity.
Qed.

(** X5. A minimum constraint without any digit (the empty string, a bare
    operator, a word) accepts every current version: [isVersionSupported]
    returns [true] for it. *)
Theorem isVersionSupported_digitless_minimum (currentVersion : JSValue)
  (minimumVersion : string) :
  filter is_digit minimumVersion = "" ->
  isVersionSupported currentVersion (JSString minimumVersion) = Normal true.
Proof.
  intros H. unfold isVersionSupported.
  destruct (negb (truthy (JSString minimumVersion))); [reflexivity|].
  unfold isVersionSupported_body.
  destruct (cleanVersion currentVersion) as [cleaned|e]; [|reflexivity].
  cbn [bind string_receiver].
  pose proof (digitless_stripOperator _ (digitless_trim _ H)) as Hstripped.
  destruct (stripOperator (trim minimumVersion)) as [operator stripped].
  cbn [snd] in Hstripped. cbn [try_catch]. f_equal.
  apply compareVersions_operator_irrelevant.
  pose proof (parseVersion_digitless _ Hstripped) as Hzero.
  pose proof (parseVersion_nonneg cleaned) as Hnn.
  unfold lexGe, major, minor, patch.
  rewrite (nth_pad3_forall (fun n => n = 0%Z) _ 0 eq_refl Hzero).
  rewrite (nth_pad3_forall (fun n => n = 0%Z) _ 1 eq_refl Hzero).
  rewrite (nth_pad3_forall (fun n => n = 0%Z) _ 2 eq_refl Hzero).
  pose proof (nth_pad3_forall (fun n => (0 <= n)%Z) _ 0 (Z.le_refl 0) Hnn).
  pose proof (nth_pad3_forall (fun n => (0 <= n)%Z) _ 1 (Z.le_refl 0) Hnn).
  pose proof (nth_pad3_forall (fun n => (0 <= n)%Z) _ 2 (Z.le_refl 0) Hnn).
  cbv beta in *. lia.
Qed.

Lemma isVersionSupported_digitless_minimum_witness :
  isVersionSupported (JSString "1.0.0") (JSString ">= latest") = Normal true.
Proof. apply isVersionSupported_digitless_minimum. reflexivity. Defined.

(** ** Identity extractor *)

Lemma takeWhile_forallb (p : ascii -> bool) (s : string) :
  forallb p (takeWhile p s) = true.
Proof.
  induction s as [|c s IH]; simpl; [reflexivity|].
  destruct (p c) eqn:E; simpl; [now rewrite E|reflexivity].
Qed.

Lemma takeWhile_dropWhile (p : ascii -> bool) (s : string) :
  takeWhile p s ++ dropWhile p s = s.
Proof.
  induction s as [|c s IH]; simpl; [reflexivity|].
  destruct (p c); simpl; [now rewrite IH | reflexivity].
Qed.

Lemma digits_lack_dot (s : string) :
  forallb is_digit s = true -> lacks "." s = true.
Proof.
  unfold lacks. induction s as [|c s IH]; simpl; [reflexivity|].
  rewrite andb_true_iff. intros [Hc Hs]. rewrite (IH Hs), andb_true_r.
  destruct (Ascii.eqb_spec c "."); [subst; vm_compute in Hc; discriminate | reflexivity].
Qed.

Lemma split_app_any (sep : ascii) (a b : string) :
  split sep (a ++ String sep b) = (split sep a ++ split sep b)%list.
Proof.
  induction a as [|c a IH]; simpl.
  - now rewrite Ascii.eqb_refl.
  - destruct (Ascii.eqb c sep); rewrite IH; [reflexivity|].
    pose proof (split_nonempty sep a). now destruct (split sep a).
Qed.

Lemma digitRun_intro (s : string) :
  s <> "" -> forallb is_digit s = true -> digitRun s = true.
Proof.
  intros Hne Hd. unfold digitRun. rewrite Hd, andb_true_r.
  destruct (String.eqb_spec s ""); [contradiction | reflexivity].
Qed.

(** What [\d+(\.\d+)*] matched: a prefix of the text, made of [n] digit
    runs. *)
Lemma dottedDigits_spec (n : nat) :
  forall s captured,
    dottedDigits n s = Some captured ->
    dottedVersion n captured = true /\ prefix captured s = true.
Proof.
  unfold dottedVersion. induction n as [|k IH]; intros s captured H; [discriminate|].
  cbn [dottedDigits] in H.
  pose proof (takeWhile_forallb is_digit s) as Hrun.
  pose proof (takeWhile_dropWhile is_digit s) as Hsplit.
  destruct (takeWhile is_digit s) as [|d run] eqn:Erun; [discriminate|].
  assert (Hdr : digitRun (String d run) = true) by (apply digitRun_intro; [discriminate | exact Hrun]).
  destruct k as [|k'].
  - injection H as <-. rewrite (split_lacks "." _ (digits_lack_dot _ Hrun)).
    cbn [List.length List.forallb]. rewrite Hdr. split; [reflexivity|].
    apply prefix_spec. exists (dropWhile is_digit s). now rewrite Hsplit.
  - destruct (dropWhile is_digit s) as [|c rest] eqn:Edrop; [discriminate|].
    assert (Hc : c = "."%char).
    { destruct c as [[] [] [] [] [] [] [] []]; try discriminate H; reflexivity. }
    subst c.
    destruct (dottedDigits (S k') rest) as [more|] eqn:Emore; [|discriminate].
    injection H as <-. destruct (IH rest more Emore) as [Hshape Hpre].
    apply andb_true_iff in Hshape as [Hlen Hall]. apply Nat.eqb_eq in Hlen.
    change (String d (run ++ String "." more)) with (String d run ++ String "." more).
    rewrite (split_app "." _ more (digits_lack_dot _ Hrun)).
    cbn [List.length List.forallb]. rewrite Hlen, Nat.eqb_refl, Hdr, Hall.
    split; [reflexivity|].
    apply prefix_spec in Hpre as [post Hpost]. apply prefix_spec.
    exists post. rewrite <- Hsplit, Hpost.
    change (String "." (more ++ post)) with (String "." more ++ post).
    now rewrite !append_assoc.
Qed.

Lemma drop_length_append (a b : string) : drop (String.length a) (a ++ b) = b.
Proof. induction a as [|c a IH]; [reflexivity | exact IH]. Qed.

Lemma matchHere_spec (re : VersionRegex) (s captured : string) :
  matchHere re s = Some captured ->
  dottedVersion (components re) captured = true
  /\ prefix (literal re ++ captured) s = true.
Proof.
  unfold matchHere. intros H.
  destruct (prefix (literal re) s) eqn:P; [|discriminate].
  apply prefix_spec in P as [post P]. subst s.
  rewrite drop_length_append in H.
  destruct (dottedDigits_spec _ _ _ H) as [Hshape Hpre]. split; [exact Hshape|].
  apply prefix_spec in Hpre as [tail ->]. apply prefix_spec.
  exists tail. now rewrite append_assoc.
Qed.

Lemma prefix_includes (p s : string) : prefix p s = true -> includes s p = true.
Proof. intros H. rewrite includes_unfold. now rewrite H. Qed.

(** What [s.match(re)] captured follows the literal somewhere in [s]. *)
Lemma regexMatch_spec (re : VersionRegex) (s captured : string) :
  regexMatch re s = Some captured ->
  dottedVersion (components re) captured = true
  /\ includes s (literal re ++ captured) = true.
Proof.
  induction s as [|c s IH]; intros H; cbn [regexMatch] in H.
  - destruct (matchHere re "") as [m|] eqn:Em; [|discriminate].
    injection H as ->. destruct (matchHere_spec _ _ _ Em) as [Hshape Hpre].
    split; [exact Hshape | now apply prefix_includes].
  - destruct (matchHere re (String c s)) as [m|] eqn:Em.
    + injection H as ->. destruct (matchHere_spec _ _ _ Em) as [Hshape Hpre].
      split; [exact Hshape | now apply prefix_includes].
    + destruct (IH H) as [Hshape Hin]. split; [exact Hshape|].
      rewrite includes_cons, Hin. now destruct (prefix _ _).
Qed.

Lemma dottedVersion_patch_zero (captured : string) :
  dottedVersion 2 captured = true -> dottedVersion 3 (captured ++ ".0") = true.
Proof.
  unfold dottedVersion. rewrite !andb_true_iff, !Nat.eqb_eq. intros [Hlen Hall].
  change (captured ++ ".0") with (captured ++ String "." "0").
  rewrite split_app_any. cbn [split]. rewrite length_app, Hlen, forallb_app, Hall.
  split; reflexivity.
Qed.

(** X6. The version [detectBrowser] returns always has the form X.Y.Z:
    three non-empty digit runs separated by dots, whatever the user agent
    is. *)
Theorem detectBrowser_version_shape (userAgent : string) :
  dottedVersion 3 (snd (detectBrowser userAgent)) = true
  /\ List.length (parseVersion (snd (detectBrowser userAgent))) = 3.
Proof.
  assert (Hshape : dottedVersion 3 (snd (detectBrowser userAgent)) = true).
  { unfold detectBrowser.
    destruct (selectedDetector userAgent) as [detector|] eqn:Hsel; [|reflexivity].
    destruct (selectedDetector_in _ _ Hsel) as [Hin _]. cbn [snd].
    unfold detectedVersion.
    destruct (regexMatch (versionRegex detector) userAgent) as [captured|] eqn:Hm.
    - destruct (regexMatch_spec _ _ _ Hm) as [Hc _].
      unfold supportedBrowserDetectors in Hin. simpl in Hin.
      repeat (destruct Hin as [<- | Hin];
              [first [exact Hc | exact (dottedVersion_patch_zero _ Hc)]|]).
      contradiction.
    - unfold supportedBrowserDetectors in Hin. simpl in Hin.
      repeat (destruct Hin as [<- | Hin]; [reflexivity|]). contradiction. }
  split; [exact Hshape|].
  unfold dottedVersion in Hshape. apply andb_true_iff in Hshape as [Hlen _].
  apply Nat.eqb_eq in Hlen. unfold parseVersion. now rewrite length_map.
Qed.

(** X7. When the selected detector's version pattern matches, the captured
    text really stands in the user agent right after the detector's
    literal, and the returned version is that text, with [.0] appended for
    the two-component patterns. *)
Theorem detectBrowser_version_provenance (userAgent : string) (detector : Detector)
  (captured : string) :
  selectedDetector userAgent = Some detector ->
  regexMatch (versionRegex detector) userAgent = Some captured ->
  includes userAgent (literal (versionRegex detector) ++ captured) = true
  /\ dottedVersion (components (versionRegex detector)) captured = true
  /\ detectBrowser userAgent
     = (browser detector,
        if (components (versionRegex detector) =? 3)%nat then captured
        else captured ++ ".0").
Proof.
  intros Hsel Hm. destruct (regexMatch_spec _ _ _ Hm) as [Hshape Hin].
  split; [exact Hin|]. split; [exact Hshape|].
  unfold detectBrowser. rewrite Hsel. unfold detectedVersion. rewrite Hm.
  destruct (selectedDetector_in _ _ Hsel) as [Hd _].
  unfold supportedBrowserDetectors in Hd. simpl in Hd.
  repeat (destruct Hd as [<- | Hd]; [reflexivity|]). contradiction.
Qed.

Lemma detectBrowser_version_provenance_witness :
  includes Sample.oldChromeUA "Chrome/85.0.4183" = true
  /\ detectBrowser Sample.oldChromeUA = (SupportedBrowser.CHROME, "85.0.4183").
Proof.
  destruct (detectBrowser_version_provenance Sample.oldChromeUA
              {| condition := fun userAgent =>
                   includes userAgent "Chrome"
                   && negb (includes userAgent "Edg")
                   && negb (includes userAgent "OPR")
                   && negb (includes userAgent "SamsungBrowser")
                   && negb (includes userAgent "Brave");
                 browser := SupportedBrowser.CHROME;
                 versionRegex := {| literal := "Chrome/"; components := 3 |};
                 customVersionProcessor := None |}
              "85.0.4183" eq_refl eq_refl) as [Hin [_ Hres]].
  split; [exact Hin | exact Hres].
Defined.

Ltac split_tokens userAgent :=
  repeat match goal with
    | |- context [includes userAgent ?token] => destruct (includes userAgent token)
    | H : context [includes userAgent ?token] |- _ => destruct (includes userAgent token)
    end.

(** The kind [detectBrowser] returns, as the nest of its six conditions. *)
Lemma detectBrowser_kind (userAgent : string) :
  fst (detectBrowser userAgent)
  = if (includes userAgent "Chrome" || includes userAgent "Safari")
       && negb (includes userAgent "Edg")
       && negb (includes userAgent "OPR")
       && negb (includes userAgent "SamsungBrowser")
       && negb (includes userAgent "Brave")
       && includes userAgent "Line"
    then SupportedBrowser.LINE
    else if includes userAgent "Safari" && negb (includes userAgent "Chrome")
    then SupportedBrowser.SAFARI
    else if includes userAgent "Chrome"
            && negb (includes userAgent "Edg")
            && negb (includes userAgent "OPR")
            && negb (includes userAgent "SamsungBrowser")
            && negb (includes userAgent "Brave")
    then SupportedBrowser.CHROME
    else if includes userAgent "Edg/" then SupportedBrowser.EDGE
    else if includes userAgent "Firefox" then SupportedBrowser.FIREFOX
    else if includes userAgent "SamsungBrowser" then SupportedBrowser.SAMSUNG
    else SupportedBrowser.UNKNOWN.
Proof.
  unfold detectBrowser, selectedDetector, supportedBrowserDetectors.
  cbn [find condition].
  repeat match goal with
    | |- context [if ?b then Some _ else _] => destruct b; [reflexivity|]
    end.
  reflexivity.
Qed.

Lemma detectBrowser_unknown_version (userAgent : string) :
  fst (detectBrowser userAgent) = SupportedBrowser.UNKNOWN ->
  detectBrowser userAgent = (SupportedBrowser.UNKNOWN, "0.0.0").
Proof.
  unfold detectBrowser.
  destruct (selectedDetector userAgent) as [detector|] eqn:Hsel; [|reflexivity].
  destruct (selectedDetector_in _ _ Hsel) as [Hin _]. cbn [fst].
  unfold supportedBrowserDetectors in Hin. simpl in Hin.
  repeat (destruct Hin as [<- | Hin]; [discriminate|]). contradiction.
Qed.

(** X8. A user agent carrying one of the markers [Edg], [OPR],
    [SamsungBrowser], [Brave] is never classified CHROME or LINE; with
    [Chrome] and an [OPR] or [Brave] marker, and none of [Edg/], [Firefox],
    [SamsungBrowser], it is UNKNOWN with version ['0.0.0']. *)
Theorem detectBrowser_excluded_markers (userAgent : string) :
  (includes userAgent "Edg" = true \/ includes userAgent "OPR" = true
   \/ includes userAgent "SamsungBrowser" = true \/ includes userAgent "Brave" = true ->
   fst (detectBrowser userAgent) <> SupportedBrowser.CHROME
   /\ fst (detectBrowser userAgent) <> SupportedBrowser.LINE)
  /\ (includes userAgent "Chrome" = true ->
      includes userAgent "OPR" = true \/ includes userAgent "Brave" = true ->
      includes userAgent "Edg/" = false ->
      includes userAgent "Firefox" = false ->
      includes userAgent "SamsungBrowser" = false ->
      detectBrowser userAgent = (SupportedBrowser.UNKNOWN, "0.0.0")).
Proof.
  split.
  - rewrite detectBrowser_kind. intros H.
    split_tokens userAgent; cbn [andb orb negb]; split; try discriminate;
      destruct H as [H | [H | [H | H]]]; discriminate.
  - intros HC HM HE HF HS. apply detectBrowser_unknown_version.
    rewrite detectBrowser_kind, HC, HE, HF, HS.
    split_tokens userAgent; cbn [andb orb negb]; try reflexivity;
      destruct HM; discriminate.
Qed.

Lemma detectBrowser_excluded_markers_witness :
  detectBrowser
    "Mozilla/5.0 (Windows NT 10.0; Win64; x64) AppleWebKit/537.36 (KHTML, like Gecko) Chrome/120.0.0.0 Safari/537.36 OPR/106.0.0.0"
  = (SupportedBrowser.UNKNOWN, "0.0.0").
Proof.
  apply (proj2 (detectBrowser_excluded_markers _)); try reflexivity.
  left. reflexivity.
Defined.

(** X9. [detectBrowser] reports a kind only when the user agent carries
    that kind's own token: CHROME needs [Chrome] and none of the four
    markers, SAFARI needs [Safari] without [Chrome], EDGE needs [Edg/],
    FIREFOX [Firefox], SAMSUNG [SamsungBrowser], LINE needs [Line]; and
    UNKNOWN always comes with version ['0.0.0']. *)
Theorem detectBrowser_kind_sound (userAgent : string) :
  match fst (detectBrowser userAgent) with
  | SupportedBrowser.LINE =>
      includes userAgent "Line" = true
      /\ (includes userAgent "Chrome" = true \/ includes userAgent "Safari" = true)
  | SupportedBrowser.SAFARI =>
      includes userAgent "Safari" = true /\ includes userAgent "Chrome" = false
  | SupportedBrowser.CHROME =>
      includes userAgent "Chrome" = true
      /\ includes userAgent "Edg" = false /\ includes userAgent "OPR" = false
      /\ includes userAgent "SamsungBrowser" = false
      /\ includes userAgent "Brave" = false
  | SupportedBrowser.EDGE => includes userAgent "Edg/" = true
  | SupportedBrowser.FIREFOX => includes userAgent "Firefox" = true
  | SupportedBrowser.SAMSUNG => includes userAgent "SamsungBrowser" = true
  | SupportedBrowser.UNKNOWN =>
      snd (detectBrowser userAgent) = "0.0.0"
      /\ includes userAgent "Edg/" = false
      /\ includes userAgent "Firefox" = false
      /\ includes userAgent "SamsungBrowser" = false
  end.
Proof.
  pose proof (detectBrowser_unknown_version userAgent) as Hunknown.
  rewrite detectBrowser_kind in *.
  split_tokens userAgent; cbn [andb orb negb] in *; repeat split; auto;
    now rewrite Hunknown.
Qed.

Lemma scanBrands_no_match (bs : list Brand) :
  Forall (fun x => exists t, brand x = JSString t /\ brandKind (toLowerCase t) = None) bs ->
  scanBrands bs = Normal None.
Proof.
  induction 1 as [|x bs [t [Ht Hnone]] _ IH]; simpl; [reflexivity|].
  now rewrite Ht; simpl; rewrite Hnone.
Qed.

Lemma findChromium_first (pre post : list Brand) (b : Brand) (text : string) :
  Forall (fun x => exists t, brand x = JSString t
                             /\ includes (toLowerCase t) "chromium" = false) pre ->
  brand b = JSString text ->
  includes (toLowerCase text) "chromium" = true ->
  findChromium (pre ++ b :: post)%list = Normal (Some b).
Proof.
  intros Hpre Hb Hc. induction Hpre as [|x pre [t [Ht Hno]] _ IH]; simpl.
  - now rewrite Hb; simpl; rewrite Hc.
  - now rewrite Ht; simpl; rewrite Hno.
Qed.

Lemma findChromium_none (bs : list Brand) :
  Forall (fun x => exists t, brand x = JSString t
                             /\ includes (toLowerCase t) "chromium" = false) bs ->
  findChromium bs = Normal None.
Proof.
  induction 1 as [|x bs [t [Ht Hno]] _ IH]; simpl; [reflexivity|].
  now rewrite Ht; simpl; rewrite Hno.
Qed.

(** X10. When every brand name is a string and none passes the four
    tests, the hints give UNKNOWN with the version of the first brand whose
    name contains [chromium]; without such a brand they give nothing
    ([null]). *)
Theorem detectBrowserFromClientHints_chromium_fallback (navigator : Navigator)
  (data : UserAgentData) (bs : list Brand) :
  userAgentData navigator = Some data ->
  brands data = Some bs ->
  Forall (fun x => exists t, brand x = JSString t /\ brandKind (toLowerCase t) = None) bs ->
  (forall pre b post text,
      bs = (pre ++ b :: post)%list ->
      Forall (fun x => exists t, brand x = JSString t
                                 /\ includes (toLowerCase t) "chromium" = false) pre ->
      brand b = JSString text ->
      includes (toLowerCase text) "chromium" = true ->
      detectBrowserFromClientHints navigator
      = Normal (Some (SupportedBrowser.UNKNOWN, brand_version b)))
  /\ (Forall (fun x => exists t, brand x = JSString t
                                 /\ includes (toLowerCase t) "chromium" = false) bs ->
      detectBrowserFromClientHints navigator = Normal None).
Proof.
  intros Hdata Hbrands Hnone.
  unfold detectBrowserFromClientHints, detectBrowserFromClientHints_body.
  rewrite Hdata, Hbrands, (scanBrands_no_match bs Hnone). cbn [bind]. split.
  - intros pre b post text -> Hpre Hb Hc.
    now rewrite (findChromium_first pre post b text Hpre Hb Hc).
  - intros Hno. now rewrite (findChromium_none bs Hno).
Qed.

Lemma detectBrowserFromClientHints_chromium_fallback_witness :
  detectBrowserFromClientHints
    (Sample.hinted [Sample.notABrand; Sample.chromiumBrand;
                    {| brand := JSString "Brave"; brand_version := JSString "1.62" |}])
  = Normal (Some (SupportedBrowser.UNKNOWN, JSString "121")).
Proof.
  refine (proj1 (detectBrowserFromClientHints_chromium_fallback
                   (Sample.hinted
                      [Sample.notABrand; Sample.chromiumBrand;
                       {| brand := JSString "Brave"; brand_version := JSString "1.62" |}])
                   (Sample.hints
                      [Sample.notABrand; Sample.chromiumBrand;
                       {| brand := JSString "Brave"; brand_version := JSString "1.62" |}])
                   _ eq_refl eq_refl _)
            [Sample.notABrand] Sample.chromiumBrand
            [{| brand := JSString "Brave"; brand_version := JSString "1.62" |}]
            "Chromium" eq_refl _ eq_refl eq_refl).
  - repeat constructor.
    + exists "Not A(Brand". split; reflexivity.
    + exists "Chromium". split; reflexivity.
    + exists "Brave". split; reflexivity.
  - repeat constructor. exists "Not A(Brand". split; reflexivity.
Defined.

Lemma scanBrands_throws (pre post : list Brand) (b : Brand) :
  Forall (fun x => exists t, brand x = JSString t /\ brandKind (toLowerCase t) = None) pre ->
  (forall t, brand b <> JSString t) ->
  scanBrands (pre ++ b :: post)%list = Throw TypeError.
Proof.
  intros Hpre Hb. induction Hpre as [|x pre [t [Ht Hnone]] _ IH]; simpl.
  - destruct (brand b) as [| |bb|bn|bs]; try reflexivity. now destruct (Hb bs).
  - now rewrite Ht; simpl; rewrite Hnone.
Qed.

Lemma parseUserAgent_without_hints (navigator : Navigator) (userAgent : string) :
  detectBrowserFromClientHints navigator = Normal None ->
  parseUserAgent navigator userAgent = Normal (userAgentIdentity userAgent).
Proof. intros H. unfold parseUserAgent. now rewrite H. Qed.

(** X11. A brand whose name is not a string, met before any brand passes a
    test, makes the hints strategy give up: the error is swallowed, the
    brands after it are not looked at, and the identity is the one of the
    raw-string heuristics. *)
Theorem malformed_brand_falls_back (navigator : Navigator) (data : UserAgentData)
  (pre post : list Brand) (b : Brand) (userAgent : string) :
  userAgentData navigator = Some data ->
  brands data = Some (pre ++ b :: post)%list ->
  Forall (fun x => exists t, brand x = JSString t /\ brandKind (toLowerCase t) = None) pre ->
  (forall t, brand b <> JSString t) ->
  detectBrowserFromClientHints navigator = Normal None
  /\ parseUserAgent navigator userAgent = Normal (userAgentIdentity userAgent).
Proof.
  intros Hdata Hbrands Hpre Hb.
  assert (H : detectBrowserFromClientHints navigator = Normal None).
  { unfold detectBrowserFromClientHints, detectBrowserFromClientHints_body.
    now rewrite Hdata, Hbrands, (scanBrands_throws pre post b Hpre Hb). }
  split; [exact H | now apply parseUserAgent_without_hints].
Qed.

Lemma malformed_brand_falls_back_witness :
  parseUserAgent
    {| nav_userAgent := Sample.oldChromeUA;
       userAgentData :=
         Some (Sample.hints [Sample.notABrand;
                             {| brand := JSUndefined; brand_version := JSString "1" |};
                             Sample.edgeBrand]) |}
    Sample.oldChromeUA
  = Normal {| id_name := SupportedBrowser.CHROME;
              id_version := JSString "85.0.4183";
              id_platform := Platform.DESKTOP |}.
Proof.
  refine (proj2 (malformed_brand_falls_back
                   {| nav_userAgent := Sample.oldChromeUA;
                      userAgentData :=
                        Some (Sample.hints
                                [Sample.notABrand;
                                 {| brand := JSUndefined; brand_version := JSString "1" |};
                                 Sample.edgeBrand]) |}
                   (Sample.hints
                      [Sample.notABrand;
                       {| brand := JSUndefined; brand_version := JSString "1" |};
                       Sample.edgeBrand])
                   [Sample.notABrand] [Sample.edgeBrand]
                   {| brand := JSUndefined; brand_version := JSString "1" |}
                   Sample.oldChromeUA eq_refl eq_refl _ _)).
  - repeat constructor. exists "Not A(Brand". split; reflexivity.
  - intros t. discriminate.
Defined.

(** X12. The two strategies of [parseUserAgent], which never throws.
    When the hints name a browser, the identity is that kind and version,
    whatever the user agent string says, with the platform the hints give
    and, only when they give none, the platform of the user agent string.
    When the hints name no browser, the identity is the one of the
    raw-string heuristics. *)
Theorem parseUserAgent_strategy (navigator : Navigator) (userAgent : string) :
  (forall kind hintVersion hinted,
      detectBrowserFromClientHints navigator = Normal (Some (kind, hintVersion)) ->
      detectPlatformFromClientHints navigator = Normal hinted ->
      parseUserAgent navigator userAgent
      = Normal {| id_name := kind;
                  id_version := hintVersion;
                  id_platform := match hinted with
                                 | Some p => p
                                 | None => detectPlatform userAgent
                                 end |})
  /\ (detectBrowserFromClientHints navigator = Normal None ->
      parseUserAgent navigator userAgent = Normal (userAgentIdentity userAgent))
  /\ (exists identity, parseUserAgent navigator userAgent = Normal identity).
Proof.
  split; [|split].
  - intros kind hintVersion hinted Hb Hp. unfold parseUserAgent.
    rewrite Hb. cbn [bind]. now rewrite Hp.
  - apply parseUserAgent_without_hints.
  - apply parseUserAgent_total.
Qed.

Lemma parseUserAgent_strategy_witness :
  parseUserAgent
    {| nav_userAgent := Sample.oldChromeUA;
       userAgentData := Some {| brands := Some [Sample.chromiumBrand; Sample.edgeBrand];
                                uad_platform := JSString "Android";
                                mobile := JSBool false |} |}
    Sample.oldChromeUA
  = Normal {| id_name := SupportedBrowser.EDGE;
              id_version := JSString "121";
              id_platform := Platform.MOBILE |}
  /\ parseUserAgent
       {| nav_userAgent := Sample.oldChromeUA;
          userAgentData := Some (Sample.hints [Sample.chromiumBrand; Sample.edgeBrand]) |}
       Sample.oldChromeUA
     = Normal {| id_name := SupportedBrowser.EDGE;
                 id_version := JSString "121";
                 id_platform := Platform.DESKTOP |}.
Proof.
  split.
  - exact (proj1 (parseUserAgent_strategy
                    {| nav_userAgent := Sample.oldChromeUA;
                       userAgentData :=
                         Some {| brands := Some [Sample.chromiumBrand; Sample.edgeBrand];
                                 uad_platform := JSString "Android";
                                 mobile := JSBool false |} |}
                    Sample.oldChromeUA)
                 SupportedBrowser.EDGE (JSString "121") (Some Platform.MOBILE)
                 eq_refl eq_refl).
  - exact (proj1 (parseUserAgent_strategy
                    {| nav_userAgent := Sample.oldChromeUA;
                       userAgentData :=
                         Some (Sample.hints [Sample.chromiumBrand; Sample.edgeBrand]) |}
                    Sample.oldChromeUA)
                 SupportedBrowser.EDGE (JSString "121") None eq_refl eq_refl).
Defined.

(** X13. A platform hint that is truthy but not a string makes
    [detectPlatformFromClientHints] return [null], even when the [mobile]
    flag is a boolean: the error of [toLowerCase] is swallowed before the
    flag is read. *)
Theorem platform_hint_not_a_string (navigator : Navigator) (data : UserAgentData) :
  userAgentData navigator = Some data ->
  truthy (uad_platform data) = true ->
  (forall t, uad_platform data <> JSString t) ->
  detectPlatformFromClientHints navigator = Normal None.
Proof.
  intros Hdata Ht Hns.
  unfold detectPlatformFromClientHints, detectPlatformFromClientHints_body.
  rewrite Hdata, Ht.
  destruct (uad_platform data) as [| |b|n|s]; try reflexivity. now destruct (Hns s).
Qed.

Lemma platform_hint_not_a_string_witness :
  detectPlatformFromClientHints
    {| nav_userAgent := "";
       userAgentData := Some {| brands := None;
                                uad_platform := JSNumber 1;
                                mobile := JSBool true |} |}
  = Normal None.
Proof.
  apply (platform_hint_not_a_string
           {| nav_userAgent := "";
              userAgentData := Some {| brands := None;
                                       uad_platform := JSNumber 1;
                                       mobile := JSBool true |} |}
           {| brands := None; uad_platform := JSNumber 1; mobile := JSBool true |}
           eq_refl eq_refl).
  intros t. discriminate.
Defined.

(** X14. A platform name decides before the [mobile] flag: a name with
    [windows], [mac] or [linux] (in any letter case) gives DESKTOP, and
    otherwise one with [android] or [ios] gives MOBILE, whatever the flag
    is; the flag only decides when the name is missing, empty or none of
    these. *)
Theorem platform_hint_before_mobile_flag (navigator : Navigator) (data : UserAgentData)
  (text : string) :
  userAgentData navigator = Some data ->
  uad_platform data = JSString text ->
  let platform := toLowerCase text in
  let desktop := includes platform "windows" || includes platform "mac"
                 || includes platform "linux" in
  let handheld := includes platform "android" || includes platform "ios" in
  (desktop = true ->
   detectPlatformFromClientHints navigator = Normal (Some Platform.DESKTOP))
  /\ (desktop = false -> handheld = true ->
      detectPlatformFromClientHints navigator = Normal (Some Platform.MOBILE))
  /\ (desktop = false -> handheld = false ->
      detectPlatformFromClientHints navigator
      = Normal match mobile data with
               | JSBool true => Some Platform.MOBILE
               | JSBool false => Some Platform.DESKTOP
               | _ => None
               end).
Proof.
  intros Hdata Htext. cbv zeta.
  unfold detectPlatformFromClientHints, detectPlatformFromClientHints_body.
  rewrite Hdata, Htext. cbn [truthy string_receiver bind as_boolean].
  assert (Hmac : includes (toLowerCase text) "macos" = true ->
                 includes (toLowerCase text) "mac" = true)
    by exact (includes_append_weaken "mac" "os" _).
  assert (Hempty : text = "" -> toLowerCase text = "") by (now intros ->).
  destruct (String.eqb_spec text "") as [E|E]; cbn [negb].
  - rewrite (Hempty E). cbn. repeat split; try discriminate.
    intros _ _. now destruct (mobile data) as [| |[]| |].
  - destruct (includes (toLowerCase text) "windows");
      destruct (includes (toLowerCase text) "macos") eqn:Emacos;
      destruct (includes (toLowerCase text) "mac") eqn:Emac;
      destruct (includes (toLowerCase text) "linux");
      destruct (includes (toLowerCase text) "android");
      destruct (includes (toLowerCase text) "ios");
      cbn [orb try_catch]; repeat split; try discriminate; try reflexivity;
      try (specialize (Hmac eq_refl); discriminate);
      intros _ _; now destruct (mobile data) as [| |[]| |].
Qed.

Lemma platform_hint_before_mobile_flag_witness :
  detectPlatformFromClientHints
    {| nav_userAgent := "";
       userAgentData := Some {| brands := None;
                                uad_platform := JSString "Windows";
                                mobile := JSBool true |} |}
  = Normal (Some Platform.DESKTOP).
Proof.
  apply (proj1 (platform_hint_before_mobile_flag
                  {| nav_userAgent := "";
                     userAgentData := Some {| brands := None;
                                              uad_platform := JSString "Windows";
                                              mobile := JSBool true |} |}
                  {| brands := None; uad_platform := JSString "Windows";
                     mobile := JSBool true |}
                  "Windows" eq_refl eq_refl)).
  reflexivity.
Defined.

(** ** Navigation policy *)

Lemma showIncompatibleBrowserError_target (window : Window) (info : BrowserInfo) :
  showIncompatibleBrowserError window info
  = (if URL.validBase (origin (location window))
     then Normal [Assign (errorTarget window)] else Throw TypeError)
  /\ showIncompatibleBrowserVersionError window info
     = (if URL.validBase (origin (location window))
        then Normal [Assign (errorTarget window)] else Throw TypeError).
Proof.
  unfold showIncompatibleBrowserError, showIncompatibleBrowserVersionError,
    errorTarget, URL.ofPath.
  destruct (URL.validBase (origin (location window))) eqn:Hvalid; [|now split].
  destruct (error_url_spec (origin (location window)) _
              (parse_wellFormed (href (location window))) Hvalid) as [Htext _].
  cbv zeta in Htext. cbn [bind]. now rewrite Htext.
Qed.

(** The decision of [checkBrowserCompatibility], once the evaluation has
    given [info]. *)
Lemma checkBrowserCompatibility_decision (window : Window)
  (config : BrowserCompatibilityConfig) (info : BrowserInfo) :
  getBrowserCompatibilityInfo window config = Normal info ->
  checkBrowserCompatibility window config
  = if URL.has (URL.parse (href (location window))) "openExternalBrowser" then Normal []
    else if negb (enabled config) then Normal []
    else if SupportedBrowser.eqb (name info) SupportedBrowser.LINE
            && negb (includes (href (location window)) "openExternalBrowser")
    then (if URL.validBase (origin (location window))
          then Normal [Replace (handoffTarget window)] else Throw TypeError)
    else if negb (isSupported info)
    then (if URL.validBase (origin (location window))
          then Normal [Assign (errorTarget window)] else Throw TypeError)
    else Normal [].
Proof.
  intros Hinfo. unfold checkBrowserCompatibility.
  destruct (URL.has _ _); [reflexivity|].
  destruct (negb (enabled config)); [reflexivity|].
  rewrite Hinfo. cbn [bind]. rewrite search_negative.
  destruct (SupportedBrowser.eqb _ _ && _).
  - unfold URL.withBase, handoffTarget.
    now destruct (URL.validBase (origin (location window))).
  - destruct (negb (isSupported info)); [|reflexivity].
    destruct (showIncompatibleBrowserError_target window info) as [-> ->].
    now destruct (minimumVersion info).
Qed.

(** X15. A pass requests at most one navigation and can only fail at the
    construction of a URL from the origin: when the origin is a valid base
    URL it completes without throwing, with no request, one replace or one
    assignment; with the gate disabled it requests nothing whatever the
    origin is; and when it throws, the origin is not a valid base, the
    gate is enabled and the marker parameter is absent. *)
Theorem checkBrowserCompatibility_outcomes (window : Window)
  (config : BrowserCompatibilityConfig) :
  (URL.validBase (origin (location window)) = true ->
   exists requests,
     checkBrowserCompatibility window config = Normal requests
     /\ List.length requests <= 1
     /\ (forall request, In request requests ->
           request = Replace (handoffTarget window)
           \/ request = Assign (errorTarget window)))
  /\ (enabled config = false -> checkBrowserCompatibility window config = Normal [])
  /\ (forall e,
        checkBrowserCompatibility window config = Throw e ->
        URL.validBase (origin (location window)) = false
        /\ enabled config = true
        /\ URL.has (URL.parse (href (location window))) "openExternalBrowser" = false).
Proof.
  destruct (getBrowserCompatibilityInfo_total window config) as [info Hinfo].
  rewrite (checkBrowserCompatibility_decision _ _ _ Hinfo).
  split; [|split].
  - intros ->.
    destruct (URL.has _ _); [exists []; simpl; intuition|].
    destruct (negb (enabled config)); [exists []; simpl; intuition|].
    destruct (SupportedBrowser.eqb _ _ && _).
    + eexists. split; [reflexivity|]. simpl. split; [lia|]. intros r [<- | []]. now left.
    + destruct (negb (isSupported info)); [|exists []; simpl; intuition].
      eexists. split; [reflexivity|]. simpl. split; [lia|]. intros r [<- | []]. now right.
  - intros ->. now destruct (URL.has _ _).
  - intros e.
    destruct (URL.has _ _); [discriminate|].
    destruct (enabled config); cbn [negb]; [|discriminate].
    destruct (URL.validBase (origin (location window))).
    + destruct (SupportedBrowser.eqb _ _ && _); [discriminate|].
      destruct (negb (isSupported info)); discriminate.
    + now intros _.
Qed.

Lemma checkBrowserCompatibility_outcomes_witness :
  (exists requests,
      checkBrowserCompatibility
        (Sample.window "https://example.com/app?lang=en" Sample.lineUA) Sample.config
      = Normal requests
      /\ List.length requests <= 1)
  /\ checkBrowserCompatibility
       (Sample.opaqueWindow "file:///srv/app/index.html" Sample.lineUA)
       {| enabled := false; supportedVersions := supportedVersions Sample.config |}
     = Normal []
  /\ URL.validBase "null" = false.
Proof.
  split; [|split].
  - destruct (proj1 (checkBrowserCompatibility_outcomes
                       (Sample.window "https://example.com/app?lang=en" Sample.lineUA)
                       Sample.config) eq_refl) as [requests [H [Hlen _]]].
    exists requests. split; assumption.
  - apply (proj1 (proj2 (checkBrowserCompatibility_outcomes
                           (Sample.opaqueWindow "file:///srv/app/index.html" Sample.lineUA)
                           {| enabled := false;
                              supportedVersions := supportedVersions Sample.config |}))).
    reflexivity.
  - apply (proj2 (proj2 (checkBrowserCompatibility_outcomes
                           (Sample.opaqueWindow "file:///srv/app/index.html" Sample.lineUA)
                           Sample.config)) TypeError).
    reflexivity.
Defined.

(** X16. A browser other than LINE whose verdict is supported gets no
    navigation. *)
Theorem supported_no_navigation (window : Window)
  (config : BrowserCompatibilityConfig) (info : BrowserInfo) :
  getBrowserCompatibilityInfo window config = Normal info ->
  name info <> SupportedBrowser.LINE ->
  isSupported info = true ->
  checkBrowserCompatibility window config = Normal [].
Proof.
  intros Hinfo Hkind Hok. rewrite (checkBrowserCompatibility_decision _ _ _ Hinfo).
  destruct (URL.has _ _); [reflexivity|].
  destruct (negb (enabled config)); [reflexivity|].
  destruct (SupportedBrowser.eqb (name info) SupportedBrowser.LINE) eqn:E.
  - apply SupportedBrowser_eqb_eq in E. contradiction.
  - now rewrite Hok.
Qed.

Lemma supported_no_navigation_witness :
  checkBrowserCompatibility
    (Sample.window "https://example.com/app?lang=en"
       "Mozilla/5.0 (X11; Linux x86_64; rv:109.0) Gecko/20100101 Firefox/115.0")
    Sample.config
  = Normal [].
Proof.
  refine (supported_no_navigation
            (Sample.window "https://example.com/app?lang=en"
               "Mozilla/5.0 (X11; Linux x86_64; rv:109.0) Gecko/20100101 Firefox/115.0")
            Sample.config
            {| name := SupportedBrowser.FIREFOX;
               version := JSString "115.0.0";
               platform := Platform.DESKTOP;
               isSupported := true;
               minimumVersion := Some ">=88.0.0";
               userAgent := "Mozilla/5.0 (X11; Linux x86_64; rv:109.0) Gecko/20100101 Firefox/115.0" |}
            eq_refl _ eq_refl).
  discriminate.
Defined.






Lemma setPair_has (name value : string) (params : list (string * string)) :
  existsb (fun p => fst p =? name) (URL.setPair name value params) = true.
Proof.
  induction params as [|p rest IH]; simpl; [now rewrite String.eqb_refl|].
  destruct (fst p =? name) eqn:E; simpl; [now rewrite String.eqb_refl|].
  now rewrite E, IH.
Qed.

Lemma setPair_cons (name value : string) (params : list (string * string)) :
  exists p rest, URL.setPair name value params = p :: rest.
Proof.
  destruct params as [|p rest]; simpl; [eauto|].
  destruct (fst p =? name); eauto.
Qed.

(** After [searchParams.set(name, value)] the printed URL parses to a URL
    that has the parameter. *)
Lemma set_then_has (href name value : string) :
  URL.has (URL.parse (URL.toString (URL.set (URL.parse href) name value))) name = true.
Proof.
  destruct (parse_wellFormed href) as [Hb1 [Hb2 _]].
  unfold URL.set.
  destruct (setPair_cons name value (URL.searchParams (URL.parse href)))
    as [p [rest E]].
  rewrite E, serializeQuery_nonempty, <- E.
  rewrite parse_toString.
  - unfold URL.has, URL.searchParams. cbn [URL.query].
    rewrite parseQuery_serializeQuery. apply setPair_has.
  - unfold URL.wellFormed. cbn [URL.base URL.query].
    repeat split; try assumption. apply serializeQuery_lacks_hash.
Qed.

(** X19. The handoff cannot loop: whenever a pass requests a replace, the
    pass that runs on the page loaded from the replaced URL requests no
    navigation, whatever the configuration then is. *)
Theorem handoff_stops_next_pass (window : Window)
  (config config' : BrowserCompatibilityConfig) (target : string) :
  checkBrowserCompatibility window config = Normal [Replace target] ->
  target = handoffTarget window
  /\ checkBrowserCompatibility (navigated window target) config' = Normal [].
Proof.
  intros H.
  assert (Htarget : target = handoffTarget window).
  { destruct (getBrowserCompatibilityInfo_total window config) as [info Hinfo].
    rewrite (checkBrowserCompatibility_decision _ _ _ Hinfo) in H.
    destruct (URL.has _ _); [discriminate|].
    destruct (negb (enabled config)); [discriminate|].
    destruct (URL.validBase (origin (location window))).
    - destruct (SupportedBrowser.eqb _ _ && _); [now injection H|].
      destruct (negb (isSupported info)); discriminate.
    - destruct (SupportedBrowser.eqb _ _ && _); [discriminate|].
      destruct (negb (isSupported info)); discriminate. }
  split; [exact Htarget|]. subst target.
  unfold checkBrowserCompatibility, navigated, handoffTarget.
  cbn [location href]. now rewrite set_then_has.
Qed.

Lemma handoff_stops_next_pass_witness :
  checkBrowserCompatibility
    (navigated (Sample.window "https://example.com/app?lang=en#top" Sample.lineUA)
               "https://example.com/app?lang=en&openExternalBrowser=1#top")
    Sample.config
  = Normal [].
Proof.
  apply (proj2 (handoff_stops_next_pass
                  (Sample.window "https://example.com/app?lang=en#top" Sample.lineUA)
                  Sample.config Sample.config
                  "https://example.com/app?lang=en&openExternalBrowser=1#top" eq_refl)).
Defined.

Lemma searchParams_of_search (url url' : URL.t) :
  URL.search url = URL.search url' -> URL.searchParams url = URL.searchParams url'.
Proof.
  unfold URL.search, URL.searchParams.
  destruct (URL.query url) as [[|c q]|], (URL.query url') as [[|c' q']|];
    intros H; try reflexivity; try discriminate.
  now injection H as -> ->.
Qed.

(** X20. The error redirect has no guard of its own: for a browser other
    than LINE with an unsupported verdict, on an origin that is a valid
    base URL, the pass that runs on the page loaded from the error URL
    requests the assignment of that same URL again. *)
Theorem error_redirect_repeats (window : Window)
  (config : BrowserCompatibilityConfig) (info : BrowserInfo) :
  enabled config = true ->
  URL.has (URL.parse (href (location window))) "openExternalBrowser" = false ->
  getBrowserCompatibilityInfo window config = Normal info ->
  name info <> SupportedBrowser.LINE ->
  isSupported info = false ->
  URL.validBase (origin (location window)) = true ->
  checkBrowserCompatibility window config = Normal [Assign (errorTarget window)]
  /\ checkBrowserCompatibility (navigated window (errorTarget window)) config
     = Normal [Assign (errorTarget window)].
Proof.
  intros Hon Hmarker Hinfo Hkind Hbad Hvalid.
  assert (Hnot : SupportedBrowser.eqb (name info) SupportedBrowser.LINE = false).
  { destruct (SupportedBrowser.eqb _ _) eqn:E; [|reflexivity].
    apply SupportedBrowser_eqb_eq in E. contradiction. }
  split.
  - now rewrite (checkBrowserCompatibility_decision _ _ _ Hinfo),
      Hmarker, Hon, Hnot, Hbad, Hvalid.
  - destruct (error_url_spec (origin (location window)) _
                (parse_wellFormed (href (location window))) Hvalid)
      as [Htext [_ [Hsearch [_ Hwf]]]].
    cbv zeta in *. apply parse_toString in Hwf.
    assert (Hparsed : URL.search (URL.parse (errorTarget window))
                      = URL.search (URL.parse (href (location window)))).
    { unfold errorTarget. rewrite <- Htext, Hwf. exact Hsearch. }
    assert (Hinfo' : getBrowserCompatibilityInfo (navigated window (errorTarget window)) config
                     = Normal info) by exact Hinfo.
    rewrite (checkBrowserCompatibility_decision _ _ _ Hinfo').
    cbn [navigated location href origin].
    unfold URL.has. rewrite (searchParams_of_search _ _ Hparsed).
    unfold URL.has in Hmarker. rewrite Hmarker, Hon, Hnot, Hbad, Hvalid. cbn [negb andb].
    unfold errorTarget at 1. cbn [navigated location href origin].
    now rewrite Hparsed.
Qed.

Lemma error_redirect_repeats_witness :
  checkBrowserCompatibility
    (navigated (Sample.window "https://example.com/app?lang=en#top" Sample.oldChromeUA)
               "https://example.com/browser-error?lang=en")
    Sample.config
  = Normal [Assign "https://example.com/browser-error?lang=en"].
Proof.
  refine (proj2 (error_redirect_repeats
                   (Sample.window "https://example.com/app?lang=en#top" Sample.oldChromeUA)
                   Sample.config
                   {| name := SupportedBrowser.CHROME;
                      version := JSString "85.0.4183";
                      platform := Platform.DESKTOP;
                      isSupported := false;
                      minimumVersion := Some ">=90.0.0";
                      userAgent := Sample.oldChromeUA |}
                   eq_refl eq_refl eq_refl _ eq_refl eq_refl)).
  discriminate.
Defined.

(** X21. [getBrowserInfo] never throws and reports the identity the gate
    judged: the same kind, version, platform and user agent as
    [getBrowserCompatibilityInfo], for every configuration, with the
    navigator's [cookieEnabled] passed through. *)
Theorem getBrowserInfo_agrees (window : Window) (config : BrowserCompatibilityConfig)
  (navigatorCookieEnabled : JSValue) :
  exists details info,
    getBrowserInfo window navigatorCookieEnabled = Normal details
    /\ getBrowserCompatibilityInfo window config = Normal info
    /\ details_name details = name info
    /\ details_version details = version info
    /\ details_platform details = platform info
    /\ details_userAgent details = userAgent info
    /\ details_userAgent details = nav_userAgent (navigator window)
    /\ cookieEnabled details = navigatorCookieEnabled.
Proof.
  unfold getBrowserInfo, getBrowserCompatibilityInfo.
  destruct (parseUserAgent_total (navigator window) (nav_userAgent (navigator window)))
    as [identity ->]. cbn [bind].
  destruct (getMinimumVersion config (id_name identity)) as [minimum|].
  - destruct (isVersionSupported_total (id_version identity) (JSString minimum))
      as [supported ->]. cbn [bind]. do 2 eexists. repeat split.
  - cbn [bind]. do 2 eexists. repeat split.
Qed.

(** ** Version verdicts *)

Lemma cleanVersion_string_total (currentVersion : string) :
  exists cleaned, cleanVersion (JSString currentVersion) = Normal cleaned.
Proof.
  unfold cleanVersion. destruct (negb (truthy (JSString currentVersion))); simpl; eauto.
Qed.

(** X22. On strings the verdict is a plain comparison: for a non-empty
    constraint, [isVersionSupported] returns [true] exactly when the
    cleaned current version is lexicographically at least the version left
    of the constraint once its operator is stripped, the components being
    compared as the Numbers [parseInt] gives; which operator was stripped
    plays no part. *)
Theorem isVersionSupported_on_strings (currentVersion minimumVersion : string) :
  minimumVersion <> "" ->
  exists cleaned supported,
    cleanVersion (JSString currentVersion) = Normal cleaned
    /\ isVersionSupported (JSString currentVersion) (JSString minimumVersion)
       = Normal supported
    /\ (supported = true
        <-> lexGe (parseVersion cleaned)
                  (parseVersion (snd (stripOperator (trim minimumVersion))))).
Proof.
  intros Hne. destruct (cleanVersion_string_total currentVersion) as [cleaned Hc].
  exists cleaned. unfold isVersionSupported, isVersionSupported_body.
  cbn [truthy string_receiver]. apply String.eqb_neq in Hne. rewrite Hne, Hc.
  cbn [negb bind].
  destruct (stripOperator (trim minimumVersion)) as [operator stripped].
  cbn [try_catch snd]. eexists. split; [reflexivity|]. split; [reflexivity|].
  apply compareVersions_operator_irrelevant.
Qed.

Lemma isVersionSupported_on_strings_witness :
  exists supported,
    isVersionSupported (JSString "91.2") (JSString "^90.5.1") = Normal supported
    /\ (supported = true <-> lexGe [91%Z; 2%Z; 0%Z] [90%Z; 5%Z; 1%Z]).
Proof.
  destruct (isVersionSupported_on_strings "91.2" "^90.5.1") as [cleaned [supported [Hc [Hs Hiff]]]];
    [discriminate|].
  injection Hc as <-. exists supported. split; [exact Hs | exact Hiff].
Defined.

(** Components from 2^53 on are compared after rounding to a double. *)
Example isVersionSupported_rounds_large_components :
  parseVersion "9007199254740993.0.0" = [9007199254740992%Z; 0%Z; 0%Z]
  /\ isVersionSupported (JSString "9007199254740992.0.0")
                        (JSString ">=9007199254740993.0.0")
     = Normal true.
Proof. split; vm_compute; reflexivity. Qed.

(** X23. A current version that is not a string: a falsy one (undefined,
    null, 0, false) is judged as ['0.0.0'], and a truthy one (a number, true)
    is accepted by every non-empty constraint, since cleaning it throws. *)
Theorem isVersionSupported_non_string_current (currentVersion : JSValue)
  (minimumVersion : string) :
  (forall s, currentVersion <> JSString s) ->
  isVersionSupported currentVersion (JSString minimumVersion)
  = if truthy currentVersion then Normal true
    else isVersionSupported (JSString "0.0.0") (JSString minimumVersion).
Proof.
  intros Hns. unfold isVersionSupported.
  destruct (negb (truthy (JSString minimumVersion)));
    [now destruct (truthy currentVersion)|].
  unfold isVersionSupported_body, cleanVersion.
  destruct currentVersion as [| |b|n|s]; cbn [truthy negb];
    try reflexivity.
  - now destruct b.
  - now destruct (n =? 0)%Z.
  - now destruct (Hns s).
Qed.

Lemma isVersionSupported_non_string_current_witness :
  isVersionSupported (JSNumber 80) (JSString ">=90.0.0") = Normal true
  /\ isVersionSupported JSUndefined (JSString ">=90.0.0") = Normal false.
Proof.
  split.
  - apply (isVersionSupported_non_string_current (JSNumber 80)). discriminate.
  - rewrite (isVersionSupported_non_string_current JSUndefined) by discriminate.
    reflexivity.
Defined.
